(** * VDM MCU framing protocol (protocol.h): frame codec

    A shallow embedding of [protocol.h]: the CRC-16/MODBUS routine, the
    big-endian helpers, the sequence counter, the frame builders and
    [parse_frame], with the properties of the codec proved about them.

    Conventions of the embedding.
    - [uint8_t], [uint16_t], [uint32_t] and [int] values are integers of [Z];
      the conversions C performs when a value is assigned to a narrower
      unsigned type are written out as [u8], [u16] and [u32].  [int] is taken
      to have at least 32 bits, so [9 + data_len + 2] never overflows.
    - Byte memory is a total map from addresses to bytes; a pointer is an
      address and [NULL] is address 0.  [buf[i] = v] is [store m (buf + i) v].
      The source never checks an index against a capacity, so neither does
      the model: a store past the end of the caller's array lands on the
      following address.
    - A [float] is represented by its IEEE-754 binary32 bit pattern, which is
      all that the source looks at (it goes through a union with
      [uint32_t]); [f32_value] gives the rational a finite pattern denotes.
    - The file-scope counter [_seq_counter] and the byte memory make up the
      program [state], threaded through the builders.  The out-parameter
      [protocol_frame_t *frame] of [parse_frame] is passed in and returned. *)

From Stdlib Require Import ZArith List Bool Lia QArith Ascii String.
Import ListNotations.

#[local] Open Scope string_scope.
#[local] Open Scope list_scope.
#[local] Open Scope Z_scope.

(** ** Machine integers *)

Definition u8 (v : Z) : Z := v mod 256.
Definition u16 (v : Z) : Z := v mod 65536.
Definition u32 (v : Z) : Z := v mod 4294967296.

Definition is_u8 (v : Z) : Prop := 0 <= v < 256.
Definition is_u16 (v : Z) : Prop := 0 <= v < 65536.
Definition is_u32 (v : Z) : Prop := 0 <= v < 4294967296.

(** ** Frame format constants *)

Definition FRAME_SYNC1 : Z := 0xAA.
Definition FRAME_SYNC2 : Z := 0x55.
Definition FRAME_VERSION : Z := 0x10.

Definition FRAME_HEADER_SIZE : Z := 9.
Definition FRAME_CRC_SIZE : Z := 2.
Definition FRAME_MIN_SIZE : Z := 11.
Definition FRAME_MAX_DATA_SIZE : Z := 65535.

Definition OFFSET_SYNC1 : Z := 0.
Definition OFFSET_SYNC2 : Z := 1.
Definition OFFSET_VER : Z := 2.
Definition OFFSET_TYPE : Z := 3.
Definition OFFSET_SEQ : Z := 4.
Definition OFFSET_CMD_H : Z := 5.
Definition OFFSET_CMD_L : Z := 6.
Definition OFFSET_LEN_H : Z := 7.
Definition OFFSET_LEN_L : Z := 8.
Definition OFFSET_DATA : Z := 9.

Definition TYPE_REQUEST : Z := 0x00.
Definition TYPE_RESPONSE : Z := 0x01.
Definition TYPE_NOTIFY : Z := 0x02.
Definition TYPE_ACK : Z := 0x03.
Definition TYPE_NACK : Z := 0x04.
Definition TYPE_PASSTHROUGH_MIN : Z := 0x80.
Definition TYPE_PASSTHROUGH_MAX : Z := 0xEF.

Definition CMD_MOTOR_ROTATE : Z := 0x3001.
Definition CMD_MOTOR_ENABLE : Z := 0x3002.
Definition CMD_MOTOR_DISABLE : Z := 0x3003.
Definition CMD_MOTOR_GET_POS : Z := 0x3006.
Definition CMD_SENSOR_READ_TEMP : Z := 0x4001.

Definition MOTOR_ID_X : Z := 0x01.
Definition ERR_DEVICE_BUSY : Z := 0x03.

(** ** Byte memory *)

Definition ptr := Z.
Definition NULL : ptr := 0.
Definition memory := ptr -> Z.

Definition load (m : memory) (a : ptr) : Z := m a.

(** [p[0] = v] for a [uint8_t *p]: the value is converted to [uint8_t]. *)
Definition store (m : memory) (a : ptr) (v : Z) : memory :=
  fun x => if x =? a then u8 v else m x.

(** [memcpy(dst, src, n)] for regions that do not overlap. *)
Definition memcpy (m : memory) (dst src : ptr) (n : Z) : memory :=
  fun x => if (dst <=? x) && (x <? dst + n) then m (src + (x - dst)) else m x.

(** The [n] bytes found at addresses [a], [a+1], ... *)
Fixpoint loadbytes_from (m : memory) (a : ptr) (n : nat) : list Z :=
  match n with
  | O => []
  | S n' => load m a :: loadbytes_from m (a + 1) n'
  end.

Definition loadbytes (m : memory) (a : ptr) (n : Z) : list Z :=
  loadbytes_from m a (Z.to_nat n).

(** A memory holding the bytes [l] from address [base] on, and 0 elsewhere. *)
Definition mem_of_list (base : ptr) (l : list Z) : memory :=
  fun x => if (base <=? x) then nth (Z.to_nat (x - base)) l 0 else 0.

(** ** Parsed frame *)

Record protocol_frame_t := mkFrame {
  version : Z;
  type : Z;
  seq : Z;
  cmd : Z;
  len : Z;
  data : ptr;
  crc : Z
}.

(** ** Big-endian helpers *)

Definition float_to_be (m : memory) (val : Z) (out : ptr) : memory :=
  let conv_u := val in
  let m := store m (out + 0) (Z.land (Z.shiftr conv_u 24) 0xFF) in
  let m := store m (out + 1) (Z.land (Z.shiftr conv_u 16) 0xFF) in
  let m := store m (out + 2) (Z.land (Z.shiftr conv_u 8) 0xFF) in
  store m (out + 3) (Z.land conv_u 0xFF).

Definition be_to_float (m : memory) (inp : ptr) : Z :=
  let conv_u :=
    u32 (Z.lor (Z.lor (Z.lor (u32 (Z.shiftl (u32 (load m (inp + 0))) 24))
                             (u32 (Z.shiftl (u32 (load m (inp + 1))) 16)))
                      (u32 (Z.shiftl (u32 (load m (inp + 2))) 8)))
               (load m (inp + 3))) in
  conv_u.

Definition u16_to_be (m : memory) (val : Z) (out : ptr) : memory :=
  let m := store m (out + 0) (Z.land (Z.shiftr val 8) 0xFF) in
  store m (out + 1) (Z.land val 0xFF).

Definition be_to_u16 (m : memory) (inp : ptr) : Z :=
  u16 (Z.lor (Z.shiftl (u16 (load m (inp + 0))) 8) (load m (inp + 1))).

(** ** CRC-16/MODBUS *)

(** One turn of the inner loop. *)
Definition crc16_shift (crc : Z) : Z :=
  if negb (Z.land crc 0x0001 =? 0)
  then u16 (Z.lxor (Z.shiftr crc 1) 0xA001)
  else u16 (Z.shiftr crc 1).

(** One turn of the outer loop: [crc ^= data[i]] and the eight shifts. *)
Definition crc16_byte (crc : Z) (b : Z) : Z :=
  let crc := u16 (Z.lxor crc b) in
  Nat.iter 8 crc16_shift crc.

(** The outer loop with [n] bytes left, [i] the current index. *)
Fixpoint crc16_loop (m : memory) (data : ptr) (n : nat) (i : Z) (crc : Z) : Z :=
  match n with
  | O => crc
  | S n' => crc16_loop m data n' (i + 1) (crc16_byte crc (load m (data + i)))
  end.

Definition crc16_modbus (m : memory) (data : ptr) (len : Z) : Z :=
  crc16_loop m data (Z.to_nat len) 0 0xFFFF.

(** The same register updates run over a byte sequence of any length. *)
Definition crc16_of_bytes (l : list Z) : Z :=
  fold_left crc16_byte l 0xFFFF.

(** ** IEEE-754 binary32 bit patterns *)

(** The rational denoted by a binary32 pattern; [None] for infinities and
    NaNs (all-ones exponent). *)
Definition f32_value (u : Z) : option Q :=
  let sign := Z.testbit u 31 in
  let e := Z.land (Z.shiftr u 23) 0xFF in
  let f := Z.land u 0x7FFFFF in
  if e =? 255 then None
  else
    let mag :=
      if e =? 0 then (inject_Z f * Qpower 2 (-149))%Q
      else (inject_Z (8388608 + f) * Qpower 2 (e - 150))%Q in
    Some (Qred (if sign then Qopp mag else mag)).

(** Exponent all ones and a non-zero fraction. *)
Definition f32_is_nan (u : Z) : bool :=
  (Z.land (Z.shiftr u 23) 0xFF =? 255) && negb (Z.land u 0x7FFFFF =? 0).

(** Exponent zero and a non-zero fraction. *)
Definition f32_is_subnormal (u : Z) : bool :=
  (Z.land (Z.shiftr u 23) 0xFF =? 0) && negb (Z.land u 0x7FFFFF =? 0).

(** ** Program state and the state monad of the builders *)

Record state := mkState {
  _seq_counter : Z;
  mem : memory
}.

Definition M (A : Type) : Type := state -> A * state.

Definition ret {A} (a : A) : M A := fun s => (a, s).

Definition bind {A B} (c : M A) (k : A -> M B) : M B :=
  fun s => let (a, s') := c s in k a s'.

Notation "x <- c ;; k" := (bind c (fun x => k))
  (at level 61, c at next level, right associativity).
Notation "c ;;; k" := (bind c (fun _ => k))
  (at level 61, right associativity).

(** Run a memory update. *)
Definition poke (f : memory -> memory) : M unit :=
  fun s => (tt, mkState (_seq_counter s) (f (mem s))).

(** Run a memory read. *)
Definition peek {A} (f : memory -> A) : M A :=
  fun s => (f (mem s), s).

Definition when (b : bool) (c : M unit) : M unit :=
  if b then c else ret tt.

(** ** Sequence generator *)

(** [return _seq_counter++;] on a [uint8_t]. *)
Definition next_seq : M Z :=
  fun s => (_seq_counter s, mkState (u8 (_seq_counter s + 1)) (mem s)).

(** [n] consecutive calls of [next_seq], with the values they return. *)
Fixpoint next_seq_times (n : nat) : M (list Z) :=
  match n with
  | O => ret []
  | S n' =>
      v <- next_seq ;;
      vs <- next_seq_times n' ;;
      ret (v :: vs)
  end.

(** ** Frame construction *)

Definition build_frame (buf : ptr) (type seq cmd : Z) (data : ptr) (data_len : Z)
  : M Z :=
  poke (fun m => store m (buf + OFFSET_SYNC1) FRAME_SYNC1) ;;;
  poke (fun m => store m (buf + OFFSET_SYNC2) FRAME_SYNC2) ;;;
  poke (fun m => store m (buf + OFFSET_VER) FRAME_VERSION) ;;;
  poke (fun m => store m (buf + OFFSET_TYPE) type) ;;;
  poke (fun m => store m (buf + OFFSET_SEQ) seq) ;;;
  poke (fun m => store m (buf + OFFSET_CMD_H) (Z.land (Z.shiftr cmd 8) 0xFF)) ;;;
  poke (fun m => store m (buf + OFFSET_CMD_L) (Z.land cmd 0xFF)) ;;;
  poke (fun m => store m (buf + OFFSET_LEN_H) (Z.land (Z.shiftr data_len 8) 0xFF)) ;;;
  poke (fun m => store m (buf + OFFSET_LEN_L) (Z.land data_len 0xFF)) ;;;
  when (negb (data =? NULL) && (0 <? data_len))
       (poke (fun m => memcpy m (buf + OFFSET_DATA) data data_len)) ;;;
  let crc_len := u16 (7 + data_len) in
  crc <- peek (fun m => crc16_modbus m (buf + OFFSET_VER) crc_len) ;;
  poke (fun m => store m (buf + (OFFSET_DATA + data_len))
                         (Z.land (Z.shiftr crc 8) 0xFF)) ;;;
  poke (fun m => store m (buf + (OFFSET_DATA + data_len + 1)) (Z.land crc 0xFF)) ;;;
  ret (FRAME_HEADER_SIZE + data_len + FRAME_CRC_SIZE).

Definition build_request (buf : ptr) (cmd : Z) (data : ptr) (data_len : Z) : M Z :=
  seq <- next_seq ;;
  build_frame buf TYPE_REQUEST seq cmd data data_len.

Definition build_ack (buf : ptr) (seq cmd : Z) : M Z :=
  build_frame buf TYPE_ACK seq cmd NULL 0.

Definition build_response (buf : ptr) (seq cmd : Z) (data : ptr) (data_len : Z)
  : M Z :=
  build_frame buf TYPE_RESPONSE seq cmd data data_len.

(** [build_nack] passes the address of its parameter [error_code];
    [error_code_p] is that address. *)
Definition build_nack (error_code_p : ptr) (buf : ptr) (seq cmd error_code : Z)
  : M Z :=
  poke (fun m => store m error_code_p error_code) ;;;
  build_frame buf TYPE_NACK seq cmd error_code_p 1.

(** ** Builders of specific commands *)

(** [data] is the address of the local array [uint8_t data[9]]; a [float]
    argument is its binary32 pattern. *)
Definition build_motor_rotate (data : ptr) (buf : ptr) (motor_id angle velocity : Z)
  : M Z :=
  poke (fun m => store m (data + 0) motor_id) ;;;
  poke (fun m => float_to_be m angle (data + 1)) ;;;
  poke (fun m => float_to_be m velocity (data + 5)) ;;;
  build_request buf CMD_MOTOR_ROTATE data 9.

(** [motor_id_p] is the address of the parameter [motor_id]. *)
Definition build_motor_enable (motor_id_p : ptr) (buf : ptr) (motor_id : Z) : M Z :=
  poke (fun m => store m motor_id_p motor_id) ;;;
  build_request buf CMD_MOTOR_ENABLE motor_id_p 1.

Definition build_motor_disable (motor_id_p : ptr) (buf : ptr) (motor_id : Z) : M Z :=
  poke (fun m => store m motor_id_p motor_id) ;;;
  build_request buf CMD_MOTOR_DISABLE motor_id_p 1.

Definition build_motor_get_pos (motor_id_p : ptr) (buf : ptr) (motor_id : Z) : M Z :=
  poke (fun m => store m motor_id_p motor_id) ;;;
  build_request buf CMD_MOTOR_GET_POS motor_id_p 1.

(** [data] is the address of the local array [uint8_t data[2]]. *)
Definition build_device_ctrl (data : ptr) (buf : ptr) (cmd device_id state : Z)
  : M Z :=
  poke (fun m => store m (data + 0) device_id) ;;;
  poke (fun m => store m (data + 1) state) ;;;
  build_request buf cmd data 2.

Definition build_sensor_read (sensor_id_p : ptr) (buf : ptr) (sensor_id : Z) : M Z :=
  poke (fun m => store m sensor_id_p sensor_id) ;;;
  build_request buf CMD_SENSOR_READ_TEMP sensor_id_p 1.

(** ** Frame parsing *)

Definition check_sync (m : memory) (buf : ptr) : bool :=
  (load m (buf + 0) =? FRAME_SYNC1) && (load m (buf + 1) =? FRAME_SYNC2).

Definition is_passthrough (type : Z) : bool :=
  (TYPE_PASSTHROUGH_MIN <=? type) && (type <=? TYPE_PASSTHROUGH_MAX).

Definition set_header (frame : protocol_frame_t) (v t s c l : Z) : protocol_frame_t :=
  mkFrame v t s c l (data frame) (crc frame).

Definition set_data_crc (frame : protocol_frame_t) (d : ptr) (c : Z)
  : protocol_frame_t :=
  mkFrame (version frame) (type frame) (seq frame) (cmd frame) (len frame) d c.

(** The result is the returned [int] and the contents of [*frame] at return. *)
Definition parse_frame (m : memory) (buf : ptr) (buf_len : Z)
  (frame : protocol_frame_t) : Z * protocol_frame_t :=
  if buf_len <? FRAME_MIN_SIZE then (-1, frame)
  else if negb (check_sync m buf) then (-2, frame)
  else
    let frame :=
      set_header frame
        (load m (buf + OFFSET_VER))
        (load m (buf + OFFSET_TYPE))
        (load m (buf + OFFSET_SEQ))
        (be_to_u16 m (buf + OFFSET_CMD_H))
        (be_to_u16 m (buf + OFFSET_LEN_H)) in
    if buf_len <? FRAME_HEADER_SIZE + len frame + FRAME_CRC_SIZE then (-3, frame)
    else
      let frame :=
        set_data_crc frame
          (buf + OFFSET_DATA)
          (be_to_u16 m (buf + (OFFSET_DATA + len frame))) in
      (FRAME_HEADER_SIZE + len frame + FRAME_CRC_SIZE, frame).

Definition get_cmd_group (cmd : Z) : Z := u8 (Z.land (Z.shiftr cmd 8) 0xFF).

Definition get_cmd_id (cmd : Z) : Z := u8 (Z.land cmd 0xFF).

(** The payload a parsed frame points at. *)
Definition frame_payload (m : memory) (frame : protocol_frame_t) : list Z :=
  loadbytes m (data frame) (len frame).

(** ** Signed 16-bit helpers *)

(** Conversion to [int16_t] (two's complement, as every supported compiler
    does it). *)
Definition i16 (v : Z) : Z :=
  let w := v mod 65536 in
  if w <? 32768 then w else w - 65536.

Definition is_i16 (v : Z) : Prop := -32768 <= v < 32768.

(** [val >> 8] on a negative [int] is an arithmetic shift, which is what
    [Z.shiftr] is; [& 0xFF] sees the two's complement bits, as [Z.land]
    does. *)
Definition i16_to_be (m : memory) (val : Z) (out : ptr) : memory :=
  let m := store m (out + 0) (Z.land (Z.shiftr val 8) 0xFF) in
  store m (out + 1) (Z.land val 0xFF).

Definition be_to_i16 (m : memory) (inp : ptr) : Z :=
  i16 (Z.lor (Z.shiftl (u16 (load m (inp + 0))) 8) (load m (inp + 1))).

(** ** Command catalog *)

Definition CMD_GROUP_SYSTEM : Z := 0x00.
Definition CMD_GROUP_QUERY : Z := 0x01.
Definition CMD_GROUP_MOTOR : Z := 0x30.
Definition CMD_GROUP_SENSOR : Z := 0x40.
Definition CMD_GROUP_DEVICE : Z := 0x50.
Definition CMD_GROUP_CONFIG : Z := 0x60.
Definition CMD_GROUP_DEBUG : Z := 0xF0.

Definition CMD_SYS_PING : Z := 0x0001.
Definition CMD_SYS_VERSION : Z := 0x0002.
Definition CMD_SYS_RESET : Z := 0x0003.
Definition CMD_SYS_SLEEP : Z := 0x0004.
Definition CMD_SYS_WAKEUP : Z := 0x0005.
Definition CMD_SYS_SET_RTC : Z := 0x0010.
Definition CMD_SYS_GET_RTC : Z := 0x0011.
Definition CMD_SYS_TEMP_CTRL : Z := 0x0020.

Definition CMD_QUERY_POWER : Z := 0x0101.
Definition CMD_QUERY_STATUS : Z := 0x0102.
Definition CMD_QUERY_NETWORK : Z := 0x0103.

Definition CMD_MOTOR_STOP : Z := 0x3004.
Definition CMD_MOTOR_SET_ORIGIN : Z := 0x3005.
Definition CMD_MOTOR_SET_VEL : Z := 0x3007.
Definition CMD_MOTOR_ROTATE_REL : Z := 0x3008.
Definition CMD_MOTOR_GET_ALL : Z := 0x3010.

Definition CMD_SENSOR_READ_ALL : Z := 0x4002.
Definition CMD_SENSOR_CONFIG : Z := 0x4010.

Definition CMD_DEV_HEATER : Z := 0x5001.
Definition CMD_DEV_FAN : Z := 0x5002.
Definition CMD_DEV_LED : Z := 0x5003.
Definition CMD_DEV_LASER : Z := 0x5004.
Definition CMD_DEV_PWM_LIGHT : Z := 0x5005.
Definition CMD_DEV_GET_STATE : Z := 0x5010.

(** The enumerators of [cmd_system_t], [cmd_query_t], [cmd_motor_t],
    [cmd_sensor_t] and [cmd_device_t], each with the group its enum is
    declared for. *)
Definition command_catalog : list (Z * Z) :=
  [ (CMD_SYS_PING, CMD_GROUP_SYSTEM); (CMD_SYS_VERSION, CMD_GROUP_SYSTEM);
    (CMD_SYS_RESET, CMD_GROUP_SYSTEM); (CMD_SYS_SLEEP, CMD_GROUP_SYSTEM);
    (CMD_SYS_WAKEUP, CMD_GROUP_SYSTEM); (CMD_SYS_SET_RTC, CMD_GROUP_SYSTEM);
    (CMD_SYS_GET_RTC, CMD_GROUP_SYSTEM); (CMD_SYS_TEMP_CTRL, CMD_GROUP_SYSTEM);
    (CMD_QUERY_POWER, CMD_GROUP_QUERY); (CMD_QUERY_STATUS, CMD_GROUP_QUERY);
    (CMD_QUERY_NETWORK, CMD_GROUP_QUERY);
    (CMD_MOTOR_ROTATE, CMD_GROUP_MOTOR); (CMD_MOTOR_ENABLE, CMD_GROUP_MOTOR);
    (CMD_MOTOR_DISABLE, CMD_GROUP_MOTOR); (CMD_MOTOR_STOP, CMD_GROUP_MOTOR);
    (CMD_MOTOR_SET_ORIGIN, CMD_GROUP_MOTOR); (CMD_MOTOR_GET_POS, CMD_GROUP_MOTOR);
    (CMD_MOTOR_SET_VEL, CMD_GROUP_MOTOR); (CMD_MOTOR_ROTATE_REL, CMD_GROUP_MOTOR);
    (CMD_MOTOR_GET_ALL, CMD_GROUP_MOTOR);
    (CMD_SENSOR_READ_TEMP, CMD_GROUP_SENSOR); (CMD_SENSOR_READ_ALL, CMD_GROUP_SENSOR);
    (CMD_SENSOR_CONFIG, CMD_GROUP_SENSOR);
    (CMD_DEV_HEATER, CMD_GROUP_DEVICE); (CMD_DEV_FAN, CMD_GROUP_DEVICE);
    (CMD_DEV_LED, CMD_GROUP_DEVICE); (CMD_DEV_LASER, CMD_GROUP_DEVICE);
    (CMD_DEV_PWM_LIGHT, CMD_GROUP_DEVICE); (CMD_DEV_GET_STATE, CMD_GROUP_DEVICE) ].

(** ** Checksum register, backwards *)

(** The register value that [crc16_shift] turns into [r]: bit 15 of [r]
    tells which branch was taken. *)
Definition crc16_unshift (r : Z) : Z :=
  if Z.testbit r 15 then 2 * Z.lxor r 0xA001 + 1 else 2 * r.

(** [P] holds of the [n] integers from [c] on. *)
Fixpoint all_from (P : Z -> bool) (n : nat) (c : Z) : bool :=
  match n with
  | O => true
  | S n' => P c && all_from P n' (c + 1)
  end.

(** ** Sample data *)

(** The bytes of an ASCII string. *)
Definition ascii_bytes (str : string) : list Z :=
  map (fun ch => Z.of_nat (nat_of_ascii ch)) (list_ascii_of_string str).

Definition zero_memory : memory := fun _ => 0.

(** The state at program start: the counter is initialised to 0. *)
Definition initial_state : state := mkState 0 zero_memory.

(** A memory in which the array at address 4096 holds the bytes [l]. *)
Definition received (l : list Z) : memory := mem_of_list 4096 l.

Definition blank_frame : protocol_frame_t := mkFrame 0 0 0 0 0 NULL 0.

(** A Nack for sequence 7, command 0x3001, error 0x03, as [build_nack]
    emits it. *)
Definition nack_frame_bytes : list Z :=
  [0xAA; 0x55; 0x10; 0x04; 0x07; 0x30; 0x01; 0x00; 0x01; 0x03; 0x19; 0x05].

(** The same frame with another version byte and a zeroed checksum. *)
Definition odd_frame_bytes : list Z :=
  [0xAA; 0x55; 0x99; 0x04; 0x07; 0x30; 0x01; 0x00; 0x01; 0x03; 0x00; 0x00].

(** A header announcing five payload bytes, of which two have arrived. *)
Definition partial_frame_bytes : list Z :=
  [0xAA; 0x55; 0x10; 0x01; 0x2A; 0x40; 0x01; 0x00; 0x05; 0x11; 0x22].

(** ** Proof automation *)

Ltac case_cmp :=
  match goal with
  | |- context [?a =? ?b] => destruct (Z.eqb_spec a b)
  | |- context [?a <=? ?b] => destruct (Z.leb_spec a b)
  | |- context [?a <? ?b] => destruct (Z.ltb_spec a b)
  end; try (exfalso; lia).

Ltac unfold_offsets :=
  unfold OFFSET_SYNC1, OFFSET_SYNC2, OFFSET_VER, OFFSET_TYPE, OFFSET_SEQ,
    OFFSET_CMD_H, OFFSET_CMD_L, OFFSET_LEN_H, OFFSET_LEN_L, OFFSET_DATA,
    FRAME_HEADER_SIZE, FRAME_CRC_SIZE, FRAME_MIN_SIZE, NULL in *.

Ltac run_builder :=
  cbv [build_frame build_request build_ack build_response build_nack next_seq
       bind poke peek when ret];
  cbn [fst snd mem _seq_counter].

(** * Properties *)

(** ** Machine integers and bit operations *)

Lemma u8_small v : is_u8 v -> u8 v = v.
Proof. unfold is_u8, u8; intros; apply Z.mod_small; lia. Qed.

Lemma u16_small v : is_u16 v -> u16 v = v.
Proof. unfold is_u16, u16; intros; apply Z.mod_small; lia. Qed.

Lemma u32_small v : is_u32 v -> u32 v = v.
Proof. unfold is_u32, u32; intros; apply Z.mod_small; lia. Qed.

Lemma u8_range v : is_u8 (u8 v).
Proof. unfold is_u8, u8; apply Z.mod_pos_bound; lia. Qed.

Lemma u16_range v : is_u16 (u16 v).
Proof. unfold is_u16, u16; apply Z.mod_pos_bound; lia. Qed.

Lemma land_255 v : Z.land v 0xFF = v mod 256.
Proof. change 0xFF with (Z.ones 8); rewrite Z.land_ones by lia; reflexivity. Qed.

Lemma land_255_range v : is_u8 (Z.land v 0xFF).
Proof. rewrite land_255; apply u8_range. Qed.

Lemma shiftr_div v k : 0 <= k -> Z.shiftr v k = v / 2 ^ k.
Proof. intros; apply Z.shiftr_div_pow2; assumption. Qed.

(** Or-ing a multiple of [2^k] with a value below [2^k] adds them. *)
Lemma lor_shiftl_low h l k :
  0 <= k -> 0 <= l < 2 ^ k -> Z.lor (Z.shiftl h k) l = h * 2 ^ k + l.
Proof.
  intros Hk Hl.
  rewrite <- Z.shiftl_mul_pow2 by assumption.
  rewrite <- Z.add_lor_land.
  assert (E : Z.land (Z.shiftl h k) l = 0).
  { apply Z.bits_inj'; intros n Hn.
    rewrite Z.land_spec, Z.bits_0.
    destruct (Z.lt_ge_cases n k) as [Hlt | Hge].
    - rewrite Z.shiftl_spec_low by assumption; reflexivity.
    - replace (Z.testbit l n) with false; [apply andb_false_r |].
      symmetry.
      rewrite <- (Z.mod_small l (2 ^ k)) by assumption.
      apply Z.mod_pow2_bits_high; lia. }
  rewrite E; lia.
Qed.

Lemma lor_mul_low h l k :
  0 <= k -> 0 <= l < 2 ^ k -> Z.lor (h * 2 ^ k) l = h * 2 ^ k + l.
Proof.
  intros Hk Hl; rewrite <- lor_shiftl_low by assumption.
  rewrite Z.shiftl_mul_pow2 by assumption; reflexivity.
Qed.

(** The two bytes [u16_to_be] writes, joined as [be_to_u16] does. *)
Lemma be16_join v :
  is_u16 v ->
  u16 (Z.lor (Z.shiftl (u16 (Z.land (Z.shiftr v 8) 0xFF)) 8) (Z.land v 0xFF)) = v.
Proof.
  unfold is_u16; intros Hv.
  rewrite !land_255, shiftr_div by lia.
  change (2 ^ 8) with 256.
  assert (H1 : 0 <= v / 256 mod 256 < 256) by (apply Z.mod_pos_bound; lia).
  assert (H2 : 0 <= v mod 256 < 256) by (apply Z.mod_pos_bound; lia).
  rewrite (u16_small (v / 256 mod 256)) by (unfold is_u16; lia).
  rewrite lor_shiftl_low by (change (2 ^ 8) with 256; lia).
  change (2 ^ 8) with 256.
  unfold u16.
  Z.div_mod_to_equations; lia.
Qed.

(** The four bytes [float_to_be] writes, joined as [be_to_float] does. *)
Lemma be32_join v :
  is_u32 v ->
  u32 (Z.lor (Z.lor (Z.lor
         (u32 (Z.shiftl (u32 (Z.land (Z.shiftr v 24) 0xFF)) 24))
         (u32 (Z.shiftl (u32 (Z.land (Z.shiftr v 16) 0xFF)) 16)))
         (u32 (Z.shiftl (u32 (Z.land (Z.shiftr v 8) 0xFF)) 8)))
         (Z.land v 0xFF)) = v.
Proof.
  unfold is_u32; intros Hv.
  rewrite !land_255, !shiftr_div by lia.
  change (2 ^ 24) with 16777216; change (2 ^ 16) with 65536;
    change (2 ^ 8) with 256.
  set (b0 := v / 16777216 mod 256).
  set (b1 := v / 65536 mod 256).
  set (b2 := v / 256 mod 256).
  set (b3 := v mod 256).
  assert (H0 : 0 <= b0 < 256) by (apply Z.mod_pos_bound; lia).
  assert (H1 : 0 <= b1 < 256) by (apply Z.mod_pos_bound; lia).
  assert (H2 : 0 <= b2 < 256) by (apply Z.mod_pos_bound; lia).
  assert (H3 : 0 <= b3 < 256) by (apply Z.mod_pos_bound; lia).
  rewrite (u32_small b0), (u32_small b1), (u32_small b2)
    by (unfold is_u32; lia).
  rewrite !Z.shiftl_mul_pow2 by lia.
  change (2 ^ 24) with 16777216; change (2 ^ 16) with 65536;
    change (2 ^ 8) with 256.
  rewrite (u32_small (b0 * 16777216)), (u32_small (b1 * 65536)),
    (u32_small (b2 * 256)) by (unfold is_u32; lia).
  assert (E1 : Z.lor (b0 * 16777216) (b1 * 65536)
               = b0 * 16777216 + b1 * 65536).
  { apply (lor_mul_low b0 (b1 * 65536) 24); [lia | ].
    change (2 ^ 24) with 16777216; lia. }
  assert (E2 : Z.lor (b0 * 16777216 + b1 * 65536) (b2 * 256)
               = b0 * 16777216 + b1 * 65536 + b2 * 256).
  { replace (b0 * 16777216 + b1 * 65536) with ((b0 * 256 + b1) * 2 ^ 16)
      by (change (2 ^ 16) with 65536; lia).
    apply lor_mul_low; [lia | change (2 ^ 16) with 65536; lia]. }
  assert (E3 : Z.lor (b0 * 16777216 + b1 * 65536 + b2 * 256) b3
               = b0 * 16777216 + b1 * 65536 + b2 * 256 + b3).
  { replace (b0 * 16777216 + b1 * 65536 + b2 * 256)
      with ((b0 * 65536 + b1 * 256 + b2) * 2 ^ 8)
      by (change (2 ^ 8) with 256; lia).
    apply lor_mul_low; [lia | change (2 ^ 8) with 256; lia]. }
  rewrite E1, E2, E3.
  unfold u32, b0, b1, b2, b3.
  Z.div_mod_to_equations; lia.
Qed.

(** ** Byte memory *)

Lemma load_store_same m a v : load (store m a v) a = u8 v.
Proof. unfold load, store; rewrite Z.eqb_refl; reflexivity. Qed.

Lemma load_store_eq m a v b : b = a -> load (store m a v) b = u8 v.
Proof. intros ->; apply load_store_same. Qed.

Lemma load_store_other m a v b : b <> a -> load (store m a v) b = load m b.
Proof.
  unfold load, store; intros H.
  destruct (Z.eqb_spec b a); [contradiction | reflexivity].
Qed.

Lemma load_memcpy_in m dst src n a :
  dst <= a < dst + n -> load (memcpy m dst src n) a = load m (src + (a - dst)).
Proof.
  unfold load, memcpy; intros H.
  destruct (Z.leb_spec dst a); [| lia].
  destruct (Z.ltb_spec a (dst + n)); [reflexivity | lia].
Qed.

Lemma load_memcpy_out m dst src n a :
  a < dst \/ dst + n <= a -> load (memcpy m dst src n) a = load m a.
Proof.
  unfold load, memcpy; intros H.
  destruct (Z.leb_spec dst a); [| reflexivity].
  destruct (Z.ltb_spec a (dst + n)); [lia | reflexivity].
Qed.

Lemma loadbytes_from_length m a n : List.length (loadbytes_from m a n) = n.
Proof. revert a; induction n; intros; simpl; [| rewrite IHn]; reflexivity. Qed.

Lemma loadbytes_from_ext m m' n : forall a,
  (forall x, a <= x < a + Z.of_nat n -> load m x = load m' x) ->
  loadbytes_from m a n = loadbytes_from m' a n.
Proof.
  induction n as [| n IH]; intros a H; [reflexivity |].
  cbn [loadbytes_from].
  rewrite (H a) by lia.
  f_equal; apply IH; intros x Hx; apply H; lia.
Qed.

Lemma loadbytes_from_shift m m' n : forall a b,
  (forall i, 0 <= i < Z.of_nat n -> load m (a + i) = load m' (b + i)) ->
  loadbytes_from m a n = loadbytes_from m' b n.
Proof.
  induction n as [| n IH]; intros a b H; [reflexivity |].
  cbn [loadbytes_from].
  generalize (H 0); rewrite !Z.add_0_r; intros ->; [| lia].
  f_equal; apply IH; intros i Hi.
  replace (a + 1 + i) with (a + (1 + i)) by lia.
  replace (b + 1 + i) with (b + (1 + i)) by lia.
  apply H; lia.
Qed.

Lemma loadbytes_from_app m n1 n2 : forall a,
  loadbytes_from m a (n1 + n2) =
  loadbytes_from m a n1 ++ loadbytes_from m (a + Z.of_nat n1) n2.
Proof.
  induction n1 as [| n1 IH]; intros a.
  - cbn; rewrite Z.add_0_r; reflexivity.
  - cbn [Nat.add loadbytes_from app]; rewrite IH.
    do 3 f_equal; lia.
Qed.

Lemma loadbytes_ext m m' a n :
  (forall x, a <= x < a + n -> load m x = load m' x) ->
  loadbytes m a n = loadbytes m' a n.
Proof.
  intros H; unfold loadbytes; apply loadbytes_from_ext.
  intros x Hx; apply H; lia.
Qed.

Lemma loadbytes_shift m m' a b n :
  (forall i, 0 <= i < n -> load m (a + i) = load m' (b + i)) ->
  loadbytes m a n = loadbytes m' b n.
Proof.
  intros H; unfold loadbytes; apply loadbytes_from_shift.
  intros i Hi; apply H; lia.
Qed.

Lemma loadbytes_length m a n : 0 <= n -> Z.of_nat (List.length (loadbytes m a n)) = n.
Proof. intros; unfold loadbytes; rewrite loadbytes_from_length; lia. Qed.

Lemma loadbytes_app m a n1 n2 :
  0 <= n1 -> 0 <= n2 ->
  loadbytes m a (n1 + n2) = loadbytes m a n1 ++ loadbytes m (a + n1) n2.
Proof.
  intros H1 H2; unfold loadbytes.
  rewrite Z2Nat.inj_add, loadbytes_from_app by assumption.
  rewrite Z2Nat.id by assumption; reflexivity.
Qed.

(** ** CRC-16/MODBUS *)

Lemma crc16_loop_bytes m p n : forall i c,
  crc16_loop m p n i c = fold_left crc16_byte (loadbytes_from m (p + i) n) c.
Proof.
  induction n as [| n IH]; intros i c; [reflexivity |].
  cbn [crc16_loop loadbytes_from fold_left].
  rewrite IH; do 2 f_equal; lia.
Qed.

(** The routine computes the checksum of the bytes it is pointed at. *)
Lemma crc16_modbus_bytes m p n :
  crc16_modbus m p n = crc16_of_bytes (loadbytes m p n).
Proof.
  unfold crc16_modbus, crc16_of_bytes, loadbytes.
  rewrite crc16_loop_bytes, Z.add_0_r; reflexivity.
Qed.

Lemma crc16_modbus_ext m m' p n :
  (forall x, p <= x < p + n -> load m x = load m' x) ->
  crc16_modbus m p n = crc16_modbus m' p n.
Proof.
  intros H; rewrite !crc16_modbus_bytes.
  f_equal; apply loadbytes_ext; assumption.
Qed.

Lemma crc16_modbus_tail_stores m p n a1 v1 a2 v2 :
  p + n <= a1 -> p + n <= a2 ->
  crc16_modbus (store (store m a1 v1) a2 v2) p n = crc16_modbus m p n.
Proof.
  intros H1 H2; apply crc16_modbus_ext; intros x Hx.
  rewrite !load_store_other by lia; reflexivity.
Qed.

Lemma u16_le v : 0 <= v -> 0 <= u16 v <= v.
Proof.
  intros H; unfold u16; split.
  - apply Z.mod_pos_bound; lia.
  - apply Z.mod_le; lia.
Qed.

(** ** The frame builder *)

(** Follow a load through the stores and copies made before it. *)
Ltac load_through :=
  repeat first
    [ rewrite load_store_eq by lia
    | rewrite load_store_other by lia
    | rewrite load_memcpy_out by lia ].

Section BuildFrame.

Variables (buf : ptr) (type seq cmd : Z) (data : ptr) (data_len : Z).
Variable s : state.

#[local] Abbreviation r := (build_frame buf type seq cmd data data_len s).

(** The returned value does not depend on any capacity. *)
Lemma build_frame_ret : fst r = 9 + data_len + 2.
Proof.
  run_builder.
  destruct (negb (data =? NULL) && (0 <? data_len)); reflexivity.
Qed.

Lemma build_frame_counter : _seq_counter (snd r) = _seq_counter s.
Proof.
  run_builder.
  destruct (negb (data =? NULL) && (0 <? data_len)); reflexivity.
Qed.

Hypothesis data_len_nonneg : 0 <= data_len.

Lemma build_frame_header_loads :
  let m' := mem (snd r) in
  load m' buf = FRAME_SYNC1 /\
  load m' (buf + 1) = FRAME_SYNC2 /\
  load m' (buf + 2) = FRAME_VERSION /\
  load m' (buf + 3) = u8 type /\
  load m' (buf + 4) = u8 seq /\
  load m' (buf + 5) = Z.land (Z.shiftr cmd 8) 0xFF /\
  load m' (buf + 6) = Z.land cmd 0xFF /\
  load m' (buf + 7) = Z.land (Z.shiftr data_len 8) 0xFF /\
  load m' (buf + 8) = Z.land data_len 0xFF.
Proof.
  run_builder; unfold_offsets.
  destruct (negb (data =? 0) && (0 <? data_len));
    cbn [fst snd mem _seq_counter]; cbv zeta;
    repeat split; load_through;
    first [ reflexivity | apply u8_small; apply land_255_range ].
Qed.

Lemma build_frame_header :
  loadbytes (mem (snd r)) buf 9 =
  [ FRAME_SYNC1; FRAME_SYNC2; FRAME_VERSION; u8 type; u8 seq;
    Z.land (Z.shiftr cmd 8) 0xFF; Z.land cmd 0xFF;
    Z.land (Z.shiftr data_len 8) 0xFF; Z.land data_len 0xFF ].
Proof.
  destruct build_frame_header_loads
    as (H0 & H1 & H2 & H3 & H4 & H5 & H6 & H7 & H8).
  unfold loadbytes; change (Z.to_nat 9) with 9%nat; cbn [loadbytes_from].
  rewrite <- !Z.add_assoc; cbn [Z.add Pos.add Pos.succ].
  rewrite H0, H1, H2, H3, H4, H5, H6, H7, H8; reflexivity.
Qed.

(** Outside the frame's [9 + data_len + 2] bytes nothing is written. *)
Lemma build_frame_outside a :
  a < buf \/ buf + 9 + data_len + 2 <= a ->
  load (mem (snd r)) a = load (mem s) a.
Proof.
  intros Ha; run_builder; unfold_offsets.
  destruct (negb (data =? 0) && (0 <? data_len));
    cbn [fst snd mem _seq_counter]; unfold load, store, memcpy;
    repeat (case_cmp; cbn [andb]); reflexivity.
Qed.

(** The trailing two bytes hold, high byte first, the checksum of the
    [u16 (7 + data_len)] bytes that start at the version byte. *)
Lemma build_frame_crc :
  let c := crc16_modbus (mem (snd r)) (buf + 2) (u16 (7 + data_len)) in
  loadbytes (mem (snd r)) (buf + 9 + data_len) 2 =
  [ Z.land (Z.shiftr c 8) 0xFF; Z.land c 0xFF ].
Proof.
  pose proof (u16_le (7 + data_len) ltac:(lia)) as Hle.
  run_builder; unfold_offsets.
  destruct (negb (data =? 0) && (0 <? data_len));
    cbn [fst snd mem _seq_counter]; cbv zeta;
    match goal with
    | |- loadbytes (store (store ?m2 _ _) _ _) _ _ = _ => set (body := m2)
    end;
    rewrite (crc16_modbus_tail_stores body) by lia;
    unfold loadbytes; change (Z.to_nat 2) with 2%nat; cbn [loadbytes_from];
    replace (buf + 9 + data_len + 1) with (buf + (9 + data_len + 1)) by lia;
    replace (buf + 9 + data_len) with (buf + (9 + data_len)) by lia;
    rewrite load_store_same, load_store_other, load_store_same by lia;
    rewrite !u8_small by apply land_255_range;
    reflexivity.
Qed.

(** A payload that does not overlap the frame is copied verbatim. *)
Lemma build_frame_payload :
  data <> NULL ->
  data + data_len <= buf \/ buf + 9 + data_len + 2 <= data ->
  loadbytes (mem (snd r)) (buf + 9) data_len = loadbytes (mem s) data data_len.
Proof.
  intros Hnull Hdisj.
  apply loadbytes_shift; intros i Hi.
  run_builder; unfold_offsets.
  destruct (Z.eqb_spec data 0) as [E | _]; [contradiction |].
  destruct (Z.ltb_spec 0 data_len) as [_ | ?]; [| lia].
  cbn [negb andb fst snd mem _seq_counter]; unfold load, store, memcpy.
  repeat (case_cmp; cbn [andb]).
  f_equal; lia.
Qed.

(** The wire image of the frame: header, payload, checksum. *)
Lemma build_frame_image :
  data <> NULL ->
  data + data_len <= buf \/ buf + 9 + data_len + 2 <= data ->
  let c := crc16_modbus (mem (snd r)) (buf + 2) (u16 (7 + data_len)) in
  loadbytes (mem (snd r)) buf (9 + data_len + 2) =
  [ FRAME_SYNC1; FRAME_SYNC2; FRAME_VERSION; u8 type; u8 seq;
    Z.land (Z.shiftr cmd 8) 0xFF; Z.land cmd 0xFF;
    Z.land (Z.shiftr data_len 8) 0xFF; Z.land data_len 0xFF ]
  ++ loadbytes (mem s) data data_len
  ++ [ Z.land (Z.shiftr c 8) 0xFF; Z.land c 0xFF ].
Proof.
  intros Hnull Hdisj c.
  rewrite <- Z.add_assoc, loadbytes_app by lia.
  rewrite (loadbytes_app _ _ data_len 2) by lia.
  rewrite build_frame_header, build_frame_payload, build_frame_crc
    by assumption.
  reflexivity.
Qed.

End BuildFrame.

(** ** The frame parser *)

Lemma be_to_u16_range m p : is_u16 (be_to_u16 m p).
Proof. apply u16_range. Qed.

Lemma check_sync_true m buf :
  check_sync m buf = true <->
  load m buf = 0xAA /\ load m (buf + 1) = 0x55.
Proof.
  unfold check_sync, FRAME_SYNC1, FRAME_SYNC2.
  rewrite Z.add_0_r, andb_true_iff, !Z.eqb_eq; reflexivity.
Qed.

Lemma parse_frame_too_short m buf buf_len frame :
  buf_len < 11 -> parse_frame m buf buf_len frame = (-1, frame).
Proof.
  intros H; unfold parse_frame, FRAME_MIN_SIZE.
  destruct (Z.ltb_spec buf_len 11); [reflexivity | lia].
Qed.

Lemma parse_frame_bad_sync m buf buf_len frame :
  11 <= buf_len -> check_sync m buf = false ->
  parse_frame m buf buf_len frame = (-2, frame).
Proof.
  intros H Hs; unfold parse_frame, FRAME_MIN_SIZE.
  destruct (Z.ltb_spec buf_len 11); [lia |].
  rewrite Hs; reflexivity.
Qed.

Lemma parse_frame_incomplete m buf buf_len frame :
  11 <= buf_len -> check_sync m buf = true ->
  buf_len < 9 + be_to_u16 m (buf + 7) + 2 ->
  parse_frame m buf buf_len frame =
  (-3, mkFrame (load m (buf + 2)) (load m (buf + 3)) (load m (buf + 4))
               (be_to_u16 m (buf + 5)) (be_to_u16 m (buf + 7))
               (data frame) (crc frame)).
Proof.
  intros H Hs Hl; unfold parse_frame, set_header; unfold_offsets.
  destruct (Z.ltb_spec buf_len 11); [lia |].
  rewrite Hs; cbn [negb len].
  destruct (Z.ltb_spec buf_len (9 + be_to_u16 m (buf + 7) + 2)); [| lia].
  reflexivity.
Qed.

Lemma parse_frame_complete m buf buf_len frame :
  11 <= buf_len -> check_sync m buf = true ->
  9 + be_to_u16 m (buf + 7) + 2 <= buf_len ->
  parse_frame m buf buf_len frame =
  (9 + be_to_u16 m (buf + 7) + 2,
   mkFrame (load m (buf + 2)) (load m (buf + 3)) (load m (buf + 4))
           (be_to_u16 m (buf + 5)) (be_to_u16 m (buf + 7))
           (buf + 9) (be_to_u16 m (buf + (9 + be_to_u16 m (buf + 7))))).
Proof.
  intros H Hs Hl; unfold parse_frame, set_header, set_data_crc; unfold_offsets.
  destruct (Z.ltb_spec buf_len 11); [lia |].
  rewrite Hs; cbn [negb len version type seq cmd].
  destruct (Z.ltb_spec buf_len (9 + be_to_u16 m (buf + 7) + 2)); [lia |].
  reflexivity.
Qed.

(** The four outcomes of [parse_frame], by the checks that select them. *)
Lemma parse_frame_cases m buf buf_len frame :
  (buf_len < 11 /\ fst (parse_frame m buf buf_len frame) = -1) \/
  (11 <= buf_len /\ check_sync m buf = false /\
   fst (parse_frame m buf buf_len frame) = -2) \/
  (11 <= buf_len /\ check_sync m buf = true /\
   buf_len < 9 + be_to_u16 m (buf + 7) + 2 /\
   fst (parse_frame m buf buf_len frame) = -3) \/
  (11 <= buf_len /\ check_sync m buf = true /\
   9 + be_to_u16 m (buf + 7) + 2 <= buf_len /\
   fst (parse_frame m buf buf_len frame) = 9 + be_to_u16 m (buf + 7) + 2).
Proof.
  destruct (Z.lt_ge_cases buf_len 11) as [H | H].
  { left; rewrite parse_frame_too_short by assumption; auto. }
  right.
  destruct (check_sync m buf) eqn:Hs.
  2:{ left; rewrite parse_frame_bad_sync by assumption; auto. }
  right.
  destruct (Z.lt_ge_cases buf_len (9 + be_to_u16 m (buf + 7) + 2)) as [Hl | Hl].
  - left; rewrite parse_frame_incomplete by assumption; auto.
  - right; rewrite parse_frame_complete by assumption; auto.
Qed.

(** ** Checksum reference values *)

(** C5 — Checksum reference values: [crc16_modbus] applied to an empty byte
    range (length 0) returns 0xFFFF, and applied to the nine ASCII bytes of
    "123456789" it returns 0x4B37, the CRC-16/MODBUS check value. *)
Theorem C5_crc16_reference_values :
  (forall m p, crc16_modbus m p 0 = 0xFFFF) /\
  (forall m p,
      loadbytes m p 9 = ascii_bytes "123456789" ->
      crc16_modbus m p 9 = 0x4B37).
Proof.
  split.
  - intros m p; reflexivity.
  - intros m p H; rewrite crc16_modbus_bytes, H; vm_compute; reflexivity.
Qed.

Lemma C5_crc16_reference_values_witness :
  crc16_modbus zero_memory 4096 0 = 0xFFFF /\
  crc16_modbus (received (ascii_bytes "123456789")) 4096 9 = 0x4B37.
Proof.
  split.
  - apply (proj1 C5_crc16_reference_values).
  - apply (proj2 C5_crc16_reference_values); reflexivity.
Defined.

(** ** Float codec *)

Lemma float_to_be_bytes m val out :
  loadbytes (float_to_be m val out) out 4 =
  [ Z.land (Z.shiftr val 24) 0xFF; Z.land (Z.shiftr val 16) 0xFF;
    Z.land (Z.shiftr val 8) 0xFF; Z.land val 0xFF ].
Proof.
  unfold loadbytes; change (Z.to_nat 4) with 4%nat; cbn [loadbytes_from].
  rewrite <- (u8_small (Z.land (Z.shiftr val 24) 0xFF)) by apply land_255_range.
  rewrite <- (u8_small (Z.land (Z.shiftr val 16) 0xFF)) by apply land_255_range.
  rewrite <- (u8_small (Z.land (Z.shiftr val 8) 0xFF)) by apply land_255_range.
  rewrite <- (u8_small (Z.land val 0xFF)) by apply land_255_range.
  unfold float_to_be, load, store.
  repeat (case_cmp; cbn [andb]); reflexivity.
Qed.

Lemma be_to_float_bytes m inp b0 b1 b2 b3 :
  loadbytes m inp 4 = [b0; b1; b2; b3] ->
  be_to_float m inp =
  u32 (Z.lor (Z.lor (Z.lor (u32 (Z.shiftl (u32 b0) 24))
                           (u32 (Z.shiftl (u32 b1) 16)))
                    (u32 (Z.shiftl (u32 b2) 8))) b3).
Proof.
  unfold loadbytes; change (Z.to_nat 4) with 4%nat; cbn [loadbytes_from].
  intros H; injection H as H0 H1 H2 H3.
  unfold be_to_float.
  replace (inp + 0) with inp by lia.
  replace (inp + 2) with (inp + 1 + 1) by lia.
  replace (inp + 3) with (inp + 1 + 1 + 1) by lia.
  rewrite H0, H1, H2, H3; reflexivity.
Qed.

(** C9 — Float codec round-trip is bit-exact: for every 32-bit pattern,
    [float_to_be] of the float with that pattern followed by [be_to_float]
    of the four bytes gives the pattern back (NaN and subnormal patterns
    included), and the bytes are laid out most-significant first. *)
Theorem C9_float_codec_roundtrip (m : memory) (out : ptr) (u : Z) :
  is_u32 u ->
  let m' := float_to_be m u out in
  be_to_float m' out = u /\
  exists b0 b1 b2 b3,
    loadbytes m' out 4 = [b0; b1; b2; b3] /\
    is_u8 b0 /\ is_u8 b1 /\ is_u8 b2 /\ is_u8 b3 /\
    u = b0 * 2 ^ 24 + b1 * 2 ^ 16 + b2 * 2 ^ 8 + b3.
Proof.
  intros Hu m'; subst m'; split.
  - rewrite (be_to_float_bytes _ _ _ _ _ _ (float_to_be_bytes m u out)).
    apply be32_join; assumption.
  - exists (Z.land (Z.shiftr u 24) 0xFF), (Z.land (Z.shiftr u 16) 0xFF),
      (Z.land (Z.shiftr u 8) 0xFF), (Z.land u 0xFF).
    split; [apply float_to_be_bytes |].
    repeat (split; [apply land_255_range |]).
    unfold is_u32 in Hu.
    rewrite !land_255, !shiftr_div by lia.
    change (2 ^ 24) with 16777216; change (2 ^ 16) with 65536;
      change (2 ^ 8) with 256.
    Z.div_mod_to_equations; lia.
Qed.

Lemma C9_float_codec_roundtrip_witness :
  (f32_is_nan 0x7FA00001 = true /\
   be_to_float (float_to_be zero_memory 0x7FA00001 4096) 4096 = 0x7FA00001) /\
  (f32_is_subnormal 0x00000001 = true /\
   be_to_float (float_to_be zero_memory 0x00000001 4096) 4096 = 0x00000001).
Proof.
  split; (split; [reflexivity |]).
  - apply (C9_float_codec_roundtrip zero_memory 4096 0x7FA00001).
    unfold is_u32; lia.
  - apply (C9_float_codec_roundtrip zero_memory 4096 0x00000001).
    unfold is_u32; lia.
Defined.

(** ** Decoder *)

(** C3 — Decoder strict fail-fast order: [parse_frame] returns -1 (TooShort)
    if and only if the buffer length is less than 11; otherwise it returns -2
    (BadSync) if and only if the first two bytes are not 0xAA, 0x55;
    otherwise it returns -3 (Incomplete) if and only if the buffer length is
    less than 9 + the declared len field + 2; otherwise it succeeds.  The
    checks are applied in this order. *)
Theorem C3_decoder_check_order (m : memory) (buf : ptr) (buf_len : Z)
  (frame : protocol_frame_t) :
  let r := fst (parse_frame m buf buf_len frame) in
  let declared := be_to_u16 m (buf + OFFSET_LEN_H) in
  (r = -1 <-> buf_len < 11) /\
  (11 <= buf_len ->
   (r = -2 <-> ~ (load m buf = 0xAA /\ load m (buf + 1) = 0x55))) /\
  (11 <= buf_len -> load m buf = 0xAA /\ load m (buf + 1) = 0x55 ->
   (r = -3 <-> buf_len < 9 + declared + 2)) /\
  (11 <= buf_len -> load m buf = 0xAA /\ load m (buf + 1) = 0x55 ->
   9 + declared + 2 <= buf_len ->
   r = 9 + declared + 2 /\ 0 < r).
Proof.
  intros r declared; subst r declared; unfold_offsets.
  pose proof (be_to_u16_range m (buf + 7)) as HL; unfold is_u16 in HL.
  pose proof (check_sync_true m buf) as Hsync.
  destruct (parse_frame_cases m buf buf_len frame)
    as [[H Hr] | [(H & Hs & Hr) | [(H & Hs & Hl & Hr) | (H & Hs & Hl & Hr)]]];
    rewrite Hr.
  - repeat split; intros; lia.
  - assert (Hn : ~ (load m buf = 170 /\ load m (buf + 1) = 85))
      by (rewrite <- Hsync, Hs; discriminate).
    repeat split; intros; try lia; try assumption; try contradiction.
  - apply Hsync in Hs.
    repeat split; intros; try lia; try assumption; try contradiction.
  - apply Hsync in Hs.
    repeat split; intros; try lia; try assumption; try contradiction.
Qed.

Lemma C3_decoder_check_order_witness :
  fst (parse_frame (received nack_frame_bytes) 4096 10 blank_frame) = -1 /\
  fst (parse_frame (received (0x00 :: nack_frame_bytes)) 4096 13 blank_frame)
  = -2 /\
  fst (parse_frame (received partial_frame_bytes) 4096 11 blank_frame) = -3 /\
  fst (parse_frame (received nack_frame_bytes) 4096 12 blank_frame) = 12.
Proof.
  split; [| split; [| split]].
  - apply (proj1 (C3_decoder_check_order
                    (received nack_frame_bytes) 4096 10 blank_frame)).
    lia.
  - apply (proj1 (proj2 (C3_decoder_check_order
                    (received (0x00 :: nack_frame_bytes)) 4096 13 blank_frame)));
      [lia |].
    vm_compute; intros [H _]; discriminate H.
  - apply (proj1 (proj2 (proj2 (C3_decoder_check_order
                    (received partial_frame_bytes) 4096 11 blank_frame))));
      [lia | split; reflexivity |].
    vm_compute; reflexivity.
  - apply (proj2 (proj2 (proj2 (C3_decoder_check_order
                    (received nack_frame_bytes) 4096 12 blank_frame))));
      [lia | split; reflexivity |].
    vm_compute; discriminate.
Defined.

Lemma be_to_u16_bytes m p hi lo :
  load m p = hi -> load m (p + 1) = lo -> is_u8 hi -> is_u8 lo ->
  be_to_u16 m p = hi * 256 + lo.
Proof.
  unfold be_to_u16, is_u8; intros H0 H1 Hhi Hlo.
  rewrite Z.add_0_r, H0, H1.
  rewrite (u16_small hi) by (unfold is_u16; lia).
  rewrite lor_shiftl_low by (change (2 ^ 8) with 256; lia).
  change (2 ^ 8) with 256.
  apply u16_small; unfold is_u16; lia.
Qed.

Lemma be_to_u16_ext m m' p :
  load m p = load m' p -> load m (p + 1) = load m' (p + 1) ->
  be_to_u16 m p = be_to_u16 m' p.
Proof.
  unfold be_to_u16; rewrite !Z.add_0_r; intros -> ->; reflexivity.
Qed.

(** C6 — Decoder performs no semantic validation: for every buffer that
    passes the length, sync and completeness checks, [parse_frame] succeeds
    whatever the version byte and whatever the trailing two bytes are; the
    trailing bytes are extracted into the frame's [crc] field and compared
    with nothing.  The second part overwrites the version byte and the two
    checksum bytes of such a buffer with arbitrary values. *)
Theorem C6_decoder_no_semantic_validation (m : memory) (buf : ptr)
  (buf_len : Z) (frame : protocol_frame_t) :
  11 <= buf_len ->
  load m buf = 0xAA /\ load m (buf + 1) = 0x55 ->
  9 + be_to_u16 m (buf + OFFSET_LEN_H) + 2 <= buf_len ->
  let declared := be_to_u16 m (buf + OFFSET_LEN_H) in
  (let (r, f) := parse_frame m buf buf_len frame in
   r = 9 + declared + 2 /\
   version f = load m (buf + OFFSET_VER) /\
   crc f = be_to_u16 m (buf + OFFSET_DATA + declared)) /\
  (forall v c_hi c_lo : Z,
      let m' := store (store (store m (buf + OFFSET_VER) v)
                        (buf + OFFSET_DATA + declared) c_hi)
                  (buf + OFFSET_DATA + declared + 1) c_lo in
      let (r, f) := parse_frame m' buf buf_len frame in
      r = 9 + declared + 2 /\
      version f = u8 v /\
      crc f = u8 c_hi * 256 + u8 c_lo).
Proof.
  unfold_offsets; cbv zeta; intros Hlen Hsync Hdecl.
  pose proof (be_to_u16_range m (buf + 7)) as HL; unfold is_u16 in HL.
  split.
  - rewrite parse_frame_complete
      by (try apply check_sync_true; assumption).
    cbn [version crc]; repeat split.
    f_equal; lia.
  - intros v c_hi c_lo.
    set (L := be_to_u16 m (buf + 7)) in *.
    set (m' := store _ _ _).
    assert (E7 : be_to_u16 m' (buf + 7) = L).
    { subst L m'; symmetry; apply be_to_u16_ext;
        rewrite !load_store_other by lia; reflexivity. }
    assert (Hs : check_sync m' buf = true).
    { apply check_sync_true; subst m'.
      rewrite !load_store_other by lia; assumption. }
    rewrite parse_frame_complete by (rewrite ?E7; assumption).
    rewrite E7; cbn [version crc]; split; [reflexivity | split].
    + subst m'; rewrite !load_store_other, load_store_same by lia.
      reflexivity.
    + apply be_to_u16_bytes; try apply u8_range; subst m'.
      * replace (buf + (9 + L)) with (buf + 9 + L) by lia.
        rewrite load_store_other, load_store_same by lia; reflexivity.
      * replace (buf + (9 + L) + 1) with (buf + 9 + L + 1) by lia.
        rewrite load_store_same; reflexivity.
Qed.

Lemma C6_decoder_no_semantic_validation_witness :
  let m := received odd_frame_bytes in
  load m (4096 + OFFSET_VER) <> FRAME_VERSION /\
  crc16_modbus m (4096 + OFFSET_VER) 8 <> 0 /\
  let (r, f) := parse_frame m 4096 12 blank_frame in
  r = 12 /\ version f = 0x99 /\ crc f = 0.
Proof.
  intros m.
  assert (H3 : 9 + be_to_u16 m (4096 + OFFSET_LEN_H) + 2 <= 12)
    by (vm_compute; discriminate).
  pose proof (C6_decoder_no_semantic_validation m 4096 12 blank_frame
                ltac:(lia) (conj eq_refl eq_refl) H3) as [H _].
  vm_compute in H.
  split; [vm_compute; discriminate |].
  split; [vm_compute; discriminate |].
  vm_compute; exact H.
Defined.

(** C10 — Decode is not atomic on the Incomplete error: when [parse_frame]
    returns -1 (TooShort) or -2 (BadSync) the frame struct is left as it
    was; when it returns -3 (Incomplete) the fields [version], [type],
    [seq], [cmd] and [len] have been overwritten with the values read from
    the buffer and the fields [data] and [crc] are left as they were. *)
Theorem C10_decode_partial_update (m : memory) (buf : ptr) (buf_len : Z)
  (frame : protocol_frame_t) :
  let (r, f) := parse_frame m buf buf_len frame in
  (r = -1 \/ r = -2 -> f = frame) /\
  (r = -3 ->
   version f = load m (buf + OFFSET_VER) /\
   type f = load m (buf + OFFSET_TYPE) /\
   seq f = load m (buf + OFFSET_SEQ) /\
   cmd f = be_to_u16 m (buf + OFFSET_CMD_H) /\
   len f = be_to_u16 m (buf + OFFSET_LEN_H) /\
   data f = data frame /\
   crc f = crc frame).
Proof.
  unfold_offsets.
  pose proof (be_to_u16_range m (buf + 7)) as HL; unfold is_u16 in HL.
  destruct (Z.lt_ge_cases buf_len 11) as [H | H].
  { rewrite parse_frame_too_short by assumption.
    split; [reflexivity | intros; lia]. }
  destruct (check_sync m buf) eqn:Hs.
  2:{ rewrite parse_frame_bad_sync by assumption.
      split; [reflexivity | intros; lia]. }
  destruct (Z.lt_ge_cases buf_len (9 + be_to_u16 m (buf + 7) + 2)) as [Hl | Hl].
  - rewrite parse_frame_incomplete by assumption.
    split; [intros [? | ?]; lia |].
    intros _; cbn; repeat split.
  - rewrite parse_frame_complete by assumption.
    split; [intros [? | ?]; lia | intros; lia].
Qed.

Lemma C10_decode_partial_update_witness :
  let before := mkFrame 1 2 3 4 5 6 7 in
  let (r, f) := parse_frame (received partial_frame_bytes) 4096 11 before in
  r = -3 /\ f = mkFrame 0x10 0x01 0x2A 0x4001 5 6 7 /\ f <> before.
Proof.
  intros before.
  pose proof (C10_decode_partial_update
                (received partial_frame_bytes) 4096 11 before) as H.
  destruct (parse_frame (received partial_frame_bytes) 4096 11 before)
    as [r f] eqn:E.
  vm_compute in E; injection E as Er Ef.
  destruct H as [_ H].
  specialize (H (eq_sym Er)).
  split; [symmetry; exact Er |].
  split; [symmetry; exact Ef |].
  subst f before; discriminate.
Defined.

(** ** Sequence generator *)

Lemma build_request_run buf cm src data_len s :
  build_request buf cm src data_len s =
  build_frame buf TYPE_REQUEST (_seq_counter s) cm src data_len
    (mkState (u8 (_seq_counter s + 1)) (mem s)).
Proof. reflexivity. Qed.

Lemma build_nack_run error_code_p buf sq cm error_code s :
  build_nack error_code_p buf sq cm error_code s =
  build_frame buf TYPE_NACK sq cm error_code_p 1
    (mkState (_seq_counter s) (store (mem s) error_code_p error_code)).
Proof. reflexivity. Qed.

Lemma next_seq_times_values n : forall s,
  is_u8 (_seq_counter s) ->
  fst (next_seq_times n s) =
  map (fun k => (_seq_counter s + Z.of_nat k) mod 256) (List.seq 0 n).
Proof.
  induction n as [| n IH]; intros s Hc; [reflexivity |].
  cbn [next_seq_times]; unfold bind at 1, next_seq at 1.
  unfold bind at 1.
  destruct (next_seq_times n (mkState (u8 (_seq_counter s + 1)) (mem s)))
    as [vs s2] eqn:E.
  unfold ret; cbn [fst List.seq map].
  f_equal.
  - rewrite Z.add_0_r; symmetry; apply Z.mod_small; exact Hc.
  - replace vs with (fst (next_seq_times n
                            (mkState (u8 (_seq_counter s + 1)) (mem s))))
      by (rewrite E; reflexivity).
    rewrite IH by (cbn [_seq_counter]; apply u8_range).
    cbn [_seq_counter].
    rewrite <- seq_shift, map_map.
    apply map_ext; intros k; unfold u8.
    rewrite Zplus_mod_idemp_l; f_equal; lia.
Qed.

(** C8 — Sequence generator semantics: [next_seq] returns the counter's
    current value and then increments it, so consecutive calls return
    consecutive values modulo 256 (a call returning 255 is followed by one
    returning 0); [build_request] consumes exactly one sequence value per
    call, while [build_ack], [build_response] and [build_nack] use the
    caller-supplied seq and leave the counter alone. *)
Theorem C8_sequence_generator (s : state) :
  is_u8 (_seq_counter s) ->
  let c := _seq_counter s in
  (let (v1, s1) := next_seq s in
   let (v2, s2) := next_seq s1 in
   v1 = c /\ _seq_counter s1 = (c + 1) mod 256 /\
   v2 = (c + 1) mod 256 /\ (v1 = 255 -> v2 = 0)) /\
  (forall n : nat,
      fst (next_seq_times n s) =
      map (fun k => (c + Z.of_nat k) mod 256) (List.seq 0 n)) /\
  (forall buf cm src data_len,
      0 <= data_len ->
      let s' := snd (build_request buf cm src data_len s) in
      load (mem s') (buf + OFFSET_SEQ) = c /\
      _seq_counter s' = (c + 1) mod 256) /\
  (forall buf sq cm,
      is_u8 sq ->
      let s' := snd (build_ack buf sq cm s) in
      load (mem s') (buf + OFFSET_SEQ) = sq /\ _seq_counter s' = c) /\
  (forall buf sq cm src data_len,
      is_u8 sq -> 0 <= data_len ->
      let s' := snd (build_response buf sq cm src data_len s) in
      load (mem s') (buf + OFFSET_SEQ) = sq /\ _seq_counter s' = c) /\
  (forall error_code_p buf sq cm error_code,
      is_u8 sq ->
      let s' := snd (build_nack error_code_p buf sq cm error_code s) in
      load (mem s') (buf + OFFSET_SEQ) = sq /\ _seq_counter s' = c).
Proof.
  intros Hc c; unfold_offsets.
  split; [| split; [| split; [| split; [| split]]]].
  - cbn [next_seq _seq_counter]; fold c.
    repeat split; intros E; rewrite E; reflexivity.
  - intros n; apply next_seq_times_values; exact Hc.
  - intros buf cm src data_len Hlen.
    rewrite build_request_run; split.
    + destruct (build_frame_header_loads buf TYPE_REQUEST c cm src data_len
                  (mkState (u8 (c + 1)) (mem s)) Hlen)
        as (_ & _ & _ & _ & H4 & _).
      fold c; rewrite H4; apply u8_small; exact Hc.
    + rewrite build_frame_counter; reflexivity.
  - intros buf sq cm Hsq; unfold build_ack; split.
    + destruct (build_frame_header_loads buf TYPE_ACK sq cm NULL 0 s
                  ltac:(lia)) as (_ & _ & _ & _ & H4 & _).
      rewrite H4; apply u8_small; exact Hsq.
    + apply build_frame_counter.
  - intros buf sq cm src data_len Hsq Hlen.
    unfold build_response; split.
    + destruct (build_frame_header_loads buf TYPE_RESPONSE sq cm src data_len s
                  Hlen) as (_ & _ & _ & _ & H4 & _).
      rewrite H4; apply u8_small; exact Hsq.
    + apply build_frame_counter.
  - intros error_code_p buf sq cm error_code Hsq.
    rewrite build_nack_run; split.
    + destruct (build_frame_header_loads buf TYPE_NACK sq cm error_code_p 1
                  (mkState (_seq_counter s) (store (mem s) error_code_p error_code))
                  ltac:(lia)) as (_ & _ & _ & _ & H4 & _).
      rewrite H4; apply u8_small; exact Hsq.
    + rewrite build_frame_counter; reflexivity.
Qed.

Lemma C8_sequence_generator_witness :
  let s := mkState 255 zero_memory in
  (let (v1, s1) := next_seq s in
   let (v2, s2) := next_seq s1 in
   v1 = 255 /\ v2 = 0) /\
  fst (next_seq_times 4 (mkState 254 zero_memory)) = [254; 255; 0; 1] /\
  _seq_counter (snd (build_request 4096 CMD_MOTOR_ENABLE NULL 0 s)) = 0 /\
  _seq_counter (snd (build_ack 4096 7 CMD_MOTOR_ENABLE s)) = 255.
Proof.
  intros s.
  assert (Hs : is_u8 (_seq_counter s)) by (unfold is_u8; cbn; lia).
  assert (Hs' : is_u8 (_seq_counter (mkState 254 zero_memory)))
    by (unfold is_u8; cbn; lia).
  pose proof (C8_sequence_generator s Hs) as (H1 & _ & H3 & H4 & _).
  pose proof (C8_sequence_generator _ Hs') as (_ & H2 & _).
  split; [| split; [| split]].
  - cbn in H1 |- *; destruct H1 as (E1 & _ & E2 & E3); auto.
  - exact (H2 4%nat).
  - apply (H3 4096 CMD_MOTOR_ENABLE NULL 0); lia.
  - apply (H4 4096 7 CMD_MOTOR_ENABLE); unfold is_u8; lia.
Defined.

(** ** Encoder *)

(** For payloads of at most 65528 bytes the checksum register of
    [build_frame] covers the version byte through the last payload byte. *)
Lemma build_frame_wire_invariant buf ty sq cm src data_len s :
  0 <= data_len <= 65528 ->
  let (n, s') := build_frame buf ty sq cm src data_len s in
  let c := crc16_of_bytes (loadbytes (mem s') (buf + 2) (7 + data_len)) in
  n = 9 + data_len + 2 /\
  loadbytes (mem s') buf 3 = [0xAA; 0x55; 0x10] /\
  loadbytes (mem s') (buf + 9 + data_len) 2 =
  [ Z.land (Z.shiftr c 8) 0xFF; Z.land c 0xFF ].
Proof.
  intros Hlen.
  pose proof (build_frame_ret buf ty sq cm src data_len s) as Hn.
  pose proof (build_frame_header_loads buf ty sq cm src data_len s
                ltac:(lia)) as (H0 & H1 & H2 & _).
  pose proof (build_frame_crc buf ty sq cm src data_len s ltac:(lia)) as Hc.
  destruct (build_frame buf ty sq cm src data_len s) as [n s'].
  cbn [fst snd] in *; cbv zeta in Hc |- *.
  rewrite (u16_small (7 + data_len)) in Hc by (unfold is_u16; lia).
  rewrite crc16_modbus_bytes in Hc.
  split; [exact Hn | split; [| exact Hc]].
  unfold loadbytes; change (Z.to_nat 3) with 3%nat; cbn [loadbytes_from].
  replace (buf + 1 + 1) with (buf + 2) by lia.
  rewrite H0, H1, H2; reflexivity.
Qed.

(** For the seven largest payload lengths [crc_len] wraps around: the
    register covers only the first [data_len - 65529] bytes. *)
Lemma build_frame_crc_wraps buf ty sq cm src data_len s :
  65529 <= data_len <= 65535 ->
  let s' := snd (build_frame buf ty sq cm src data_len s) in
  let c := crc16_of_bytes (loadbytes (mem s') (buf + 2) (data_len - 65529)) in
  loadbytes (mem s') (buf + 9 + data_len) 2 =
  [ Z.land (Z.shiftr c 8) 0xFF; Z.land c 0xFF ].
Proof.
  intros Hlen.
  pose proof (build_frame_crc buf ty sq cm src data_len s ltac:(lia)) as Hc.
  cbv zeta in Hc |- *.
  replace (u16 (7 + data_len)) with (data_len - 65529) in Hc
    by (unfold u16; Z.div_mod_to_equations; lia).
  rewrite crc16_modbus_bytes in Hc; exact Hc.
Qed.





(** C4, at a payload of 65529 bytes — [uint16_t crc_len = 7 + data_len]
    wraps to 0, so the two trailing bytes of the frame are FF FF, the
    checksum of an empty range, whereas the CRC-16/MODBUS checksum of the
    7 + data_len bytes from the version byte through the last payload byte
    of that frame is 0x97E2.  (Here the payload is 65529 zero bytes.) *)
Theorem C4_checksum_range_wraps_at_65529 :
  let data_len := 65529 in
  let (n, s') :=
    build_frame 131072 TYPE_RESPONSE 0 0x3001 4096 data_len initial_state in
  n = 9 + data_len + 2 /\
  loadbytes (mem s') 131072 3 = [0xAA; 0x55; 0x10] /\
  loadbytes (mem s') (131072 + 9 + data_len) 2 = [0xFF; 0xFF] /\
  crc16_of_bytes (loadbytes (mem s') (131072 + 2) (7 + data_len)) = 0x97E2.
Proof. vm_compute; repeat split; reflexivity. Qed.

(** ** Round trip *)

Lemma build_frame_len_field buf ty sq cm src data_len s :
  is_u16 data_len ->
  be_to_u16 (mem (snd (build_frame buf ty sq cm src data_len s))) (buf + 7)
  = data_len.
Proof.
  intros Hlen.
  destruct (build_frame_header_loads buf ty sq cm src data_len s
              ltac:(unfold is_u16 in Hlen; lia))
    as (_ & _ & _ & _ & _ & _ & _ & H7 & H8).
  unfold be_to_u16.
  replace (buf + 7 + 0) with (buf + 7) by lia.
  replace (buf + 7 + 1) with (buf + 8) by lia.
  rewrite H7, H8; apply be16_join; exact Hlen.
Qed.

Lemma build_frame_cmd_field buf ty sq cm src data_len s :
  is_u16 cm -> 0 <= data_len ->
  be_to_u16 (mem (snd (build_frame buf ty sq cm src data_len s))) (buf + 5)
  = cm.
Proof.
  intros Hcm Hlen.
  destruct (build_frame_header_loads buf ty sq cm src data_len s Hlen)
    as (_ & _ & _ & _ & _ & H5 & H6 & _).
  unfold be_to_u16.
  replace (buf + 5 + 0) with (buf + 5) by lia.
  replace (buf + 5 + 1) with (buf + 6) by lia.
  rewrite H5, H6; apply be16_join; exact Hcm.
Qed.

(** C1 (as the code has it) — Encode/decode round trip: for every frame
    type, sequence number, command code and payload of length at most 65524
    (so that the frame's 9 + len + 2 bytes can be counted by the 16-bit
    [buf_len] of [parse_frame]), decoding the buffer produced by
    [build_frame] yields a frame whose type, seq, cmd and payload bytes are
    those given to the encoder, and the decoder reports a consumed length of
    9 + payload length + 2. *)
Theorem C1_roundtrip (buf : ptr) (ty sq cm : Z) (src : ptr) (data_len : Z)
  (s : state) (frame : protocol_frame_t) :
  is_u8 ty -> is_u8 sq -> is_u16 cm ->
  0 <= data_len <= 65524 ->
  data_len = 0 \/
  (src <> NULL /\
   (src + data_len <= buf \/ buf + 9 + data_len + 2 <= src)) ->
  let (n, s') := build_frame buf ty sq cm src data_len s in
  let (r, f) := parse_frame (mem s') buf (u16 n) frame in
  r = 9 + data_len + 2 /\ r = n /\
  type f = ty /\ seq f = sq /\ cmd f = cm /\ len f = data_len /\
  frame_payload (mem s') f = loadbytes (mem s) src data_len.
Proof.
  intros Hty Hsq Hcm Hlen Hsrc.
  pose proof (build_frame_ret buf ty sq cm src data_len s) as Hn.
  pose proof (build_frame_header_loads buf ty sq cm src data_len s
                ltac:(lia)) as (H0 & H1 & _ & H3 & H4 & _).
  pose proof (build_frame_len_field buf ty sq cm src data_len s
                ltac:(unfold is_u16; lia)) as HL.
  pose proof (build_frame_cmd_field buf ty sq cm src data_len s Hcm
                ltac:(lia)) as HC.
  assert (HP : loadbytes (mem (snd (build_frame buf ty sq cm src data_len s)))
                 (buf + 9) data_len
               = loadbytes (mem s) src data_len).
  { destruct Hsrc as [-> | [Hnull Hdisj]]; [reflexivity |].
    apply build_frame_payload; first [assumption | lia]. }
  destruct (build_frame buf ty sq cm src data_len s) as [n s'].
  cbn [fst snd] in *; subst n.
  rewrite (u16_small (9 + data_len + 2)) by (unfold is_u16; lia).
  rewrite parse_frame_complete
    by (rewrite ?HL; try apply check_sync_true; try split; try assumption; lia).
  unfold frame_payload; cbn [type seq cmd len data].
  rewrite HL, HC, H3, H4, HP.
  rewrite (u8_small ty), (u8_small sq) by assumption.
  repeat split.
Qed.

Lemma C1_roundtrip_witness :
  let s := mkState 0 (mem_of_list 8192 [0x03]) in
  let (n, s') := build_frame 4096 TYPE_NACK 7 0x3001 8192 1 s in
  let (r, f) := parse_frame (mem s') 4096 (u16 n) blank_frame in
  r = 12 /\ r = n /\
  type f = TYPE_NACK /\ seq f = 7 /\ cmd f = 0x3001 /\ len f = 1 /\
  frame_payload (mem s') f = [0x03].
Proof.
  intros s.
  apply (C1_roundtrip 4096 TYPE_NACK 7 0x3001 8192 1 s blank_frame);
    unfold is_u8, is_u16, TYPE_NACK, NULL; lia.
Defined.

(** C1 as stated fails for a payload of 65525 bytes: [build_frame] returns
    65536, which as a [uint16_t] buffer length is 0, and [parse_frame]
    answers -1; given the largest length it can be given, 65535, it answers
    -3. *)
Lemma C1_counterexample :
  let data_len := 65525 in
  let (n, s') :=
    build_frame 131072 TYPE_RESPONSE 7 0x3001 4096 data_len initial_state in
  data_len <= 65535 /\
  n = 65536 /\
  fst (parse_frame (mem s') 131072 (u16 n) blank_frame) = -1 /\
  fst (parse_frame (mem s') 131072 65535 blank_frame) = -3.
Proof. vm_compute; repeat split; discriminate. Qed.

(** No [uint16_t] buffer length lets [parse_frame] decode a frame whose
    payload has 65525 bytes or more: the answer is -1 or -3. *)
Lemma built_frame_above_65524_not_decoded buf ty sq cm src data_len s
  buf_len frame :
  65525 <= data_len <= 65535 -> is_u16 buf_len ->
  let m' := mem (snd (build_frame buf ty sq cm src data_len s)) in
  fst (parse_frame m' buf buf_len frame) = -1 \/
  fst (parse_frame m' buf buf_len frame) = -3.
Proof.
  intros Hlen Hbuf m'; unfold is_u16 in Hbuf.
  pose proof (build_frame_len_field buf ty sq cm src data_len s
                ltac:(unfold is_u16; lia)) as HL.
  destruct (build_frame_header_loads buf ty sq cm src data_len s
              ltac:(lia)) as (L0 & L1 & _).
  fold m' in HL, L0, L1.
  assert (Hs : check_sync m' buf = true)
    by (apply check_sync_true; split; assumption).
  destruct (parse_frame_cases m' buf buf_len frame)
    as [[H E] | [(H & Hs' & E) | [(H & _ & Hl & E) | (H & _ & Hl & E)]]].
  - left; exact E.
  - congruence.
  - right; exact E.
  - rewrite HL in Hl; lia.
Qed.

(** ** Motor-rotate scenario *)

Lemma build_motor_rotate_run data_p buf motor_id angle velocity s :
  build_motor_rotate data_p buf motor_id angle velocity s =
  build_frame buf TYPE_REQUEST (_seq_counter s) CMD_MOTOR_ROTATE data_p 9
    (mkState (u8 (_seq_counter s + 1))
       (float_to_be
          (float_to_be (store (mem s) (data_p + 0) motor_id) angle (data_p + 1))
          velocity (data_p + 5))).
Proof. reflexivity. Qed.

(** The local array of [build_motor_rotate] once it is filled in. *)
Lemma motor_rotate_payload m data_p motor_id angle velocity :
  loadbytes
    (float_to_be
       (float_to_be (store m (data_p + 0) motor_id) angle (data_p + 1))
       velocity (data_p + 5)) data_p 9 =
  [ u8 motor_id;
    Z.land (Z.shiftr angle 24) 0xFF; Z.land (Z.shiftr angle 16) 0xFF;
    Z.land (Z.shiftr angle 8) 0xFF; Z.land angle 0xFF;
    Z.land (Z.shiftr velocity 24) 0xFF; Z.land (Z.shiftr velocity 16) 0xFF;
    Z.land (Z.shiftr velocity 8) 0xFF; Z.land velocity 0xFF ].
Proof.
  unfold loadbytes; change (Z.to_nat 9) with 9%nat; cbn [loadbytes_from].
  unfold float_to_be.
  repeat match goal with
         | |- _ :: _ = _ :: _ => f_equal
         end;
    load_through;
    first [ reflexivity | apply u8_small; apply land_255_range ].
Qed.

(** C7 — Motor-rotate scenario: [build_motor_rotate] with motor id 0x01,
    angle 90.0 and velocity 10.0 produces a frame with type 0x00 (Request),
    command 0x3001, the 9-byte payload 01 42 B4 00 00 41 20 00 00, len
    field 9 and total returned length 20, whose trailing two bytes are the
    CRC-16/MODBUS checksum of bytes [2..18) of the buffer. *)
Theorem C7_motor_rotate_scenario (data_p buf : ptr) (s : state) :
  is_u8 (_seq_counter s) ->
  data_p <> NULL ->
  data_p + 9 <= buf \/ buf + 20 <= data_p ->
  let angle := 0x42B40000 in
  let velocity := 0x41200000 in
  f32_value angle = Some 90%Q /\
  f32_value velocity = Some 10%Q /\
  let (n, s') := build_motor_rotate data_p buf MOTOR_ID_X angle velocity s in
  let c := crc16_of_bytes (loadbytes (mem s') (buf + 2) 16) in
  n = 20 /\
  loadbytes (mem s') buf 20 =
  [ 0xAA; 0x55; 0x10; 0x00; _seq_counter s; 0x30; 0x01; 0x00; 0x09;
    0x01; 0x42; 0xB4; 0x00; 0x00; 0x41; 0x20; 0x00; 0x00;
    Z.land (Z.shiftr c 8) 0xFF; Z.land c 0xFF ].
Proof.
  intros Hc Hnull Hdisj angle velocity.
  split; [vm_compute; reflexivity |].
  split; [vm_compute; reflexivity |].
  rewrite build_motor_rotate_run.
  set (s1 := mkState _ _).
  pose proof (build_frame_ret buf TYPE_REQUEST (_seq_counter s)
                CMD_MOTOR_ROTATE data_p 9 s1) as Hn.
  pose proof (build_frame_image buf TYPE_REQUEST (_seq_counter s)
                CMD_MOTOR_ROTATE data_p 9 s1 ltac:(lia) Hnull ltac:(lia))
    as Himg.
  destruct (build_frame buf TYPE_REQUEST (_seq_counter s)
              CMD_MOTOR_ROTATE data_p 9 s1) as [n s'].
  cbn [fst snd] in *; cbv zeta in Himg |- *.
  split; [rewrite Hn; reflexivity |].
  change (9 + 9 + 2) with 20 in Himg.
  change (u16 (7 + 9)) with 16 in Himg.
  rewrite crc16_modbus_bytes in Himg.
  rewrite Himg; subst s1; cbn [mem].
  rewrite motor_rotate_payload.
  rewrite (u8_small (_seq_counter s)) by exact Hc.
  reflexivity.
Qed.

Lemma C7_motor_rotate_scenario_witness :
  let (n, s') :=
    build_motor_rotate 8192 4096 MOTOR_ID_X 0x42B40000 0x41200000
      initial_state in
  n = 20 /\
  loadbytes (mem s') 4096 20 =
  [ 0xAA; 0x55; 0x10; 0x00; 0x00; 0x30; 0x01; 0x00; 0x09;
    0x01; 0x42; 0xB4; 0x00; 0x00; 0x41; 0x20; 0x00; 0x00; 0xA4; 0xB6 ].
Proof.
  assert (Hc : is_u8 (_seq_counter initial_state))
    by (unfold is_u8; cbn; lia).
  assert (Hn : 8192 <> NULL) by discriminate.
  pose proof (C7_motor_rotate_scenario 8192 4096 initial_state
                Hc Hn ltac:(lia)) as (_ & _ & H).
  vm_compute in H |- *; exact H.
Defined.

(** * Further properties of the codec *)

(** ** Integer codecs *)

Lemma be16_value hi lo :
  is_u8 hi -> is_u8 lo ->
  u16 (Z.lor (Z.shiftl (u16 hi) 8) lo) = hi * 256 + lo.
Proof.
  unfold is_u8; intros Hhi Hlo.
  rewrite (u16_small hi) by (unfold is_u16; lia).
  rewrite lor_shiftl_low by (change (2 ^ 8) with 256; lia).
  change (2 ^ 8) with 256.
  apply u16_small; unfold is_u16; lia.
Qed.

Lemma be32_value b0 b1 b2 b3 :
  is_u8 b0 -> is_u8 b1 -> is_u8 b2 -> is_u8 b3 ->
  u32 (Z.lor (Z.lor (Z.lor (u32 (Z.shiftl (u32 b0) 24))
                           (u32 (Z.shiftl (u32 b1) 16)))
                    (u32 (Z.shiftl (u32 b2) 8))) b3)
  = b0 * 16777216 + b1 * 65536 + b2 * 256 + b3.
Proof.
  unfold is_u8; intros H0 H1 H2 H3.
  rewrite (u32_small b0), (u32_small b1), (u32_small b2)
    by (unfold is_u32; lia).
  rewrite !Z.shiftl_mul_pow2 by lia.
  change (2 ^ 24) with 16777216; change (2 ^ 16) with 65536;
    change (2 ^ 8) with 256.
  rewrite (u32_small (b0 * 16777216)), (u32_small (b1 * 65536)),
    (u32_small (b2 * 256)) by (unfold is_u32; lia).
  assert (E1 : Z.lor (b0 * 16777216) (b1 * 65536)
               = b0 * 16777216 + b1 * 65536).
  { apply (lor_mul_low b0 (b1 * 65536) 24); [lia |].
    change (2 ^ 24) with 16777216; lia. }
  assert (E2 : Z.lor (b0 * 16777216 + b1 * 65536) (b2 * 256)
               = b0 * 16777216 + b1 * 65536 + b2 * 256).
  { replace (b0 * 16777216 + b1 * 65536) with ((b0 * 256 + b1) * 2 ^ 16)
      by (change (2 ^ 16) with 65536; lia).
    apply lor_mul_low; [lia | change (2 ^ 16) with 65536; lia]. }
  assert (E3 : Z.lor (b0 * 16777216 + b1 * 65536 + b2 * 256) b3
               = b0 * 16777216 + b1 * 65536 + b2 * 256 + b3).
  { replace (b0 * 16777216 + b1 * 65536 + b2 * 256)
      with ((b0 * 65536 + b1 * 256 + b2) * 2 ^ 8)
      by (change (2 ^ 8) with 256; lia).
    apply lor_mul_low; [lia | change (2 ^ 8) with 256; lia]. }
  rewrite E1, E2, E3.
  apply u32_small; unfold is_u32; lia.
Qed.

Lemma u16_to_be_bytes m val out :
  loadbytes (u16_to_be m val out) out 2 =
  [ Z.land (Z.shiftr val 8) 0xFF; Z.land val 0xFF ].
Proof.
  unfold loadbytes; change (Z.to_nat 2) with 2%nat; cbn [loadbytes_from].
  unfold u16_to_be.
  f_equal; [| f_equal]; load_through; apply u8_small; apply land_255_range.
Qed.

Lemma be_to_u16_of_bytes m inp hi lo :
  loadbytes m inp 2 = [hi; lo] ->
  be_to_u16 m inp = u16 (Z.lor (Z.shiftl (u16 hi) 8) lo).
Proof.
  unfold loadbytes; change (Z.to_nat 2) with 2%nat; cbn [loadbytes_from].
  intros H; injection H as H0 H1.
  unfold be_to_u16; rewrite Z.add_0_r, H0, H1; reflexivity.
Qed.

(** X1 — [u16_to_be] followed by [be_to_u16] gives back every 16-bit value,
    and the two bytes written are its base-256 digits, high digit first. *)
Theorem X1_u16_codec_roundtrip (m : memory) (out : ptr) (v : Z) :
  is_u16 v ->
  be_to_u16 (u16_to_be m v out) out = v /\
  exists hi lo,
    loadbytes (u16_to_be m v out) out 2 = [hi; lo] /\
    is_u8 hi /\ is_u8 lo /\ v = hi * 256 + lo.
Proof.
  intros Hv; split.
  - rewrite (be_to_u16_of_bytes _ _ _ _ (u16_to_be_bytes m v out)).
    rewrite (u16_small (Z.land _ _))
      by (pose proof (land_255_range (Z.shiftr v 8)); unfold is_u8, is_u16 in *; lia).
    rewrite <- (u16_small (Z.land (Z.shiftr v 8) 255))
      by (pose proof (land_255_range (Z.shiftr v 8)); unfold is_u8, is_u16 in *; lia).
    apply be16_join; exact Hv.
  - exists (Z.land (Z.shiftr v 8) 0xFF), (Z.land v 0xFF).
    split; [apply u16_to_be_bytes |].
    split; [apply land_255_range | split; [apply land_255_range |]].
    unfold is_u16 in Hv.
    rewrite !land_255, shiftr_div by lia; change (2 ^ 8) with 256.
    Z.div_mod_to_equations; lia.
Qed.

Lemma X1_u16_codec_roundtrip_witness :
  be_to_u16 (u16_to_be zero_memory 0x3001 4096) 4096 = 0x3001 /\
  loadbytes (u16_to_be zero_memory 0x3001 4096) 4096 2 = [0x30; 0x01].
Proof.
  split.
  - apply (X1_u16_codec_roundtrip zero_memory 4096 0x3001).
    unfold is_u16; lia.
  - reflexivity.
Defined.

Lemma i16_to_be_bytes m val out :
  loadbytes (i16_to_be m val out) out 2 =
  [ Z.land (Z.shiftr val 8) 0xFF; Z.land val 0xFF ].
Proof. apply (u16_to_be_bytes m val out). Qed.

(** X2 — [i16_to_be] followed by [be_to_i16] gives back every value of
    [int16_t], negative ones included; the bytes written are those
    [u16_to_be] writes for the two's complement pattern [v mod 65536]. *)
Theorem X2_i16_codec_roundtrip (m : memory) (out : ptr) (v : Z) :
  is_i16 v ->
  be_to_i16 (i16_to_be m v out) out = v /\
  loadbytes (i16_to_be m v out) out 2 =
  loadbytes (u16_to_be m (v mod 65536) out) out 2.
Proof.
  unfold is_i16; intros Hv.
  assert (Hhi : Z.land (Z.shiftr v 8) 0xFF = v / 256 mod 256)
    by (rewrite land_255, shiftr_div by lia; reflexivity).
  assert (Hlo : Z.land v 0xFF = v mod 256) by apply land_255.
  split.
  - pose proof (i16_to_be_bytes m v out) as Hb.
    unfold loadbytes in Hb; change (Z.to_nat 2) with 2%nat in Hb.
    cbn [loadbytes_from] in Hb; injection Hb as H0 H1.
    unfold be_to_i16; rewrite Z.add_0_r, H0, H1, Hhi, Hlo.
    assert (R1 : 0 <= v / 256 mod 256 < 256) by (apply Z.mod_pos_bound; lia).
    assert (R2 : 0 <= v mod 256 < 256) by (apply Z.mod_pos_bound; lia).
    rewrite (u16_small (v / 256 mod 256)) by (unfold is_u16; lia).
    rewrite lor_shiftl_low by (change (2 ^ 8) with 256; lia).
    change (2 ^ 8) with 256.
    unfold i16; cbv zeta.
    destruct (Z.ltb_spec ((v / 256 mod 256 * 256 + v mod 256) mod 65536) 32768);
      Z.div_mod_to_equations; lia.
  - rewrite i16_to_be_bytes, u16_to_be_bytes.
    rewrite !land_255, !shiftr_div by lia; change (2 ^ 8) with 256.
    f_equal; [| f_equal]; Z.div_mod_to_equations; lia.
Qed.

Lemma X2_i16_codec_roundtrip_witness :
  be_to_i16 (i16_to_be zero_memory (-2) 4096) 4096 = -2 /\
  loadbytes (i16_to_be zero_memory (-2) 4096) 4096 2 = [0xFF; 0xFE] /\
  be_to_i16 (i16_to_be zero_memory (-32768) 4096) 4096 = -32768.
Proof.
  split; [| split].
  - apply (X2_i16_codec_roundtrip zero_memory 4096 (-2)); unfold is_i16; lia.
  - reflexivity.
  - apply (X2_i16_codec_roundtrip zero_memory 4096 (-32768));
      unfold is_i16; lia.
Defined.

(** X3 — The codecs are also inverse in the other direction: four bytes
    read with [be_to_float] and written with [float_to_be] are the same
    four bytes, and two bytes read with [be_to_u16] and written with
    [u16_to_be] are the same two bytes. *)
Theorem X3_decode_then_encode (m m0 : memory) (inp out : ptr) :
  (forall b0 b1 b2 b3,
      loadbytes m inp 4 = [b0; b1; b2; b3] ->
      is_u8 b0 -> is_u8 b1 -> is_u8 b2 -> is_u8 b3 ->
      loadbytes (float_to_be m0 (be_to_float m inp) out) out 4
      = [b0; b1; b2; b3]) /\
  (forall hi lo,
      loadbytes m inp 2 = [hi; lo] ->
      is_u8 hi -> is_u8 lo ->
      loadbytes (u16_to_be m0 (be_to_u16 m inp) out) out 2 = [hi; lo]).
Proof.
  split.
  - intros b0 b1 b2 b3 Hb H0 H1 H2 H3.
    rewrite (be_to_float_bytes _ _ _ _ _ _ Hb), be32_value by assumption.
    rewrite float_to_be_bytes.
    unfold is_u8 in *.
    rewrite !land_255, !shiftr_div by lia.
    change (2 ^ 24) with 16777216; change (2 ^ 16) with 65536;
      change (2 ^ 8) with 256.
    repeat match goal with
           | |- _ :: _ = _ :: _ => f_equal
           end; Z.div_mod_to_equations; lia.
  - intros hi lo Hb H0 H1.
    rewrite (be_to_u16_of_bytes _ _ _ _ Hb), be16_value by assumption.
    rewrite u16_to_be_bytes.
    unfold is_u8 in *.
    rewrite !land_255, !shiftr_div by lia; change (2 ^ 8) with 256.
    repeat match goal with
           | |- _ :: _ = _ :: _ => f_equal
           end; Z.div_mod_to_equations; lia.
Qed.

Lemma X3_decode_then_encode_witness :
  let m := received [0x42; 0xB4; 0x00; 0x00] in
  loadbytes (float_to_be zero_memory (be_to_float m 4096) 8192) 8192 4
  = [0x42; 0xB4; 0x00; 0x00] /\
  loadbytes (u16_to_be zero_memory (be_to_u16 m 4096) 8192) 8192 2
  = [0x42; 0xB4].
Proof.
  intros m; split.
  - apply (proj1 (X3_decode_then_encode m zero_memory 4096 8192));
      unfold is_u8; try lia; reflexivity.
  - apply (proj2 (X3_decode_then_encode m zero_memory 4096 8192));
      unfold is_u8; try lia; reflexivity.
Defined.

(** ** Command codes *)

(** X4 — [get_cmd_group] and [get_cmd_id] split a 16-bit command code into
    its two bytes, [cmd = group * 256 + id], and these are the bytes
    [build_frame] puts at offsets 5 and 6 of the frame. *)
Theorem X4_cmd_group_id_split (cm : Z) :
  is_u16 cm ->
  is_u8 (get_cmd_group cm) /\ is_u8 (get_cmd_id cm) /\
  cm = get_cmd_group cm * 256 + get_cmd_id cm /\
  forall buf ty sq src data_len s,
    0 <= data_len ->
    let m' := mem (snd (build_frame buf ty sq cm src data_len s)) in
    load m' (buf + OFFSET_CMD_H) = get_cmd_group cm /\
    load m' (buf + OFFSET_CMD_L) = get_cmd_id cm.
Proof.
  intros Hcm; unfold get_cmd_group, get_cmd_id.
  rewrite !(u8_small (Z.land _ _)) by apply land_255_range.
  split; [apply land_255_range | split; [apply land_255_range | split]].
  - unfold is_u16 in Hcm.
    rewrite !land_255, shiftr_div by lia; change (2 ^ 8) with 256.
    Z.div_mod_to_equations; lia.
  - intros buf ty sq src data_len s Hlen; cbv zeta; unfold_offsets.
    destruct (build_frame_header_loads buf ty sq cm src data_len s Hlen)
      as (_ & _ & _ & _ & _ & H5 & H6 & _).
    split; assumption.
Qed.

Lemma X4_cmd_group_id_split_witness :
  get_cmd_group CMD_MOTOR_ROTATE = 0x30 /\ get_cmd_id CMD_MOTOR_ROTATE = 0x01 /\
  CMD_MOTOR_ROTATE = get_cmd_group CMD_MOTOR_ROTATE * 256
                     + get_cmd_id CMD_MOTOR_ROTATE.
Proof.
  assert (H : is_u16 CMD_MOTOR_ROTATE) by (unfold is_u16, CMD_MOTOR_ROTATE; lia).
  destruct (X4_cmd_group_id_split CMD_MOTOR_ROTATE H) as (_ & _ & E & _).
  split; [reflexivity | split; [reflexivity | exact E]].
Defined.

(** X5 — The command catalog is consistent with the group enumeration:
    every command enumerator is a 16-bit code whose high byte
    ([get_cmd_group]) is the group constant of the enum it is declared in
    and whose id is not 0, and no two enumerators share a code. *)
Theorem X5_command_catalog_groups :
  (forall c g, In (c, g) command_catalog ->
               is_u16 c /\ get_cmd_group c = g /\ get_cmd_id c <> 0) /\
  NoDup (map fst command_catalog).
Proof.
  split.
  - intros c g H; unfold command_catalog in H; cbn [In] in H.
    repeat (destruct H as [H | H];
            [injection H as <- <-; vm_compute;
             split; [split; [discriminate | reflexivity] |
                     split; [reflexivity | discriminate]] |]).
    contradiction.
  - unfold command_catalog; cbn [map fst].
    repeat (constructor;
            [cbn [In]; vm_compute; intros H;
             repeat (destruct H as [H | H]; [discriminate H |]);
             exact H |]).
    constructor.
Qed.

Lemma X5_command_catalog_groups_witness :
  is_u16 CMD_DEV_LASER /\ get_cmd_group CMD_DEV_LASER = CMD_GROUP_DEVICE /\
  get_cmd_id CMD_DEV_LASER <> 0.
Proof.
  apply (proj1 X5_command_catalog_groups CMD_DEV_LASER CMD_GROUP_DEVICE).
  unfold command_catalog; cbn [In].
  do 26 right; left; reflexivity.
Defined.

(** ** Frame types *)

Lemma build_frame_type_byte buf ty sq cm src data_len s :
  0 <= data_len ->
  load (mem (snd (build_frame buf ty sq cm src data_len s))) (buf + 3) = u8 ty.
Proof.
  intros Hlen.
  destruct (build_frame_header_loads buf ty sq cm src data_len s Hlen)
    as (_ & _ & _ & H3 & _).
  exact H3.
Qed.

(** X6 — No builder emits a passthrough frame: the type byte of a frame
    made by [build_request], [build_ack], [build_response] or [build_nack]
    is outside the range 0x80..0xEF that [is_passthrough] recognises, and
    [is_passthrough] accepts exactly that range. *)
Theorem X6_builders_never_passthrough (buf : ptr) (s : state) :
  (forall t, is_passthrough t = true <-> 0x80 <= t <= 0xEF) /\
  (forall cm src data_len, 0 <= data_len ->
     is_passthrough
       (load (mem (snd (build_request buf cm src data_len s)))
          (buf + OFFSET_TYPE)) = false) /\
  (forall sq cm,
     is_passthrough
       (load (mem (snd (build_ack buf sq cm s))) (buf + OFFSET_TYPE)) = false) /\
  (forall sq cm src data_len, 0 <= data_len ->
     is_passthrough
       (load (mem (snd (build_response buf sq cm src data_len s)))
          (buf + OFFSET_TYPE)) = false) /\
  (forall error_code_p sq cm error_code,
     is_passthrough
       (load (mem (snd (build_nack error_code_p buf sq cm error_code s)))
          (buf + OFFSET_TYPE)) = false).
Proof.
  unfold_offsets.
  split; [| split; [| split; [| split]]].
  - intros t; unfold is_passthrough, TYPE_PASSTHROUGH_MIN, TYPE_PASSTHROUGH_MAX.
    rewrite andb_true_iff, !Z.leb_le; reflexivity.
  - intros cm src data_len Hlen.
    rewrite build_request_run, build_frame_type_byte by assumption.
    reflexivity.
  - intros sq cm; unfold build_ack.
    rewrite build_frame_type_byte by lia; reflexivity.
  - intros sq cm src data_len Hlen; unfold build_response.
    rewrite build_frame_type_byte by assumption; reflexivity.
  - intros error_code_p sq cm error_code.
    rewrite build_nack_run, build_frame_type_byte by lia; reflexivity.
Qed.

Lemma X6_builders_never_passthrough_witness :
  is_passthrough
    (load (mem (snd (build_request 4096 CMD_SYS_PING NULL 0 initial_state)))
       (4096 + OFFSET_TYPE)) = false /\
  is_passthrough 0x80 = true /\ is_passthrough 0xF0 = false.
Proof.
  split.
  - apply (proj1 (proj2 (X6_builders_never_passthrough 4096 initial_state))).
    lia.
  - split; reflexivity.
Defined.

(** ** Decoder bounds *)

Lemma check_sync_ext m m' buf :
  load m buf = load m' buf -> load m (buf + 1) = load m' (buf + 1) ->
  check_sync m buf = check_sync m' buf.
Proof.
  unfold check_sync; rewrite !Z.add_0_r; intros -> ->; reflexivity.
Qed.

Lemma parse_frame_ext (m m' : memory) (buf : ptr) (buf_len : Z)
  (frame : protocol_frame_t) :
  (forall a, buf <= a < buf + buf_len -> load m a = load m' a) ->
  parse_frame m buf buf_len frame = parse_frame m' buf buf_len frame.
Proof.
  intros Hext.
  destruct (Z.lt_ge_cases buf_len 11) as [H | H].
  { rewrite !parse_frame_too_short by assumption; reflexivity. }
  assert (Hs : check_sync m buf = check_sync m' buf)
    by (apply check_sync_ext; apply Hext; lia).
  assert (H5 : be_to_u16 m (buf + 5) = be_to_u16 m' (buf + 5))
    by (apply be_to_u16_ext; apply Hext; lia).
  assert (H7 : be_to_u16 m (buf + 7) = be_to_u16 m' (buf + 7))
    by (apply be_to_u16_ext; apply Hext; lia).
  pose proof (be_to_u16_range m (buf + 7)) as HL; unfold is_u16 in HL.
  destruct (check_sync m buf) eqn:Es.
  2:{ rewrite !parse_frame_bad_sync by congruence; reflexivity. }
  destruct (Z.lt_ge_cases buf_len (9 + be_to_u16 m (buf + 7) + 2)) as [Hl | Hl].
  - rewrite !parse_frame_incomplete by congruence.
    rewrite H5, H7, !Hext by lia; reflexivity.
  - rewrite !parse_frame_complete by congruence.
    rewrite H5, <- H7, !Hext by lia.
    do 2 f_equal.
    apply be_to_u16_ext; apply Hext; lia.
Qed.

Lemma parse_frame_grow (m : memory) (buf : ptr) (buf_len buf_len' : Z)
  (frame : protocol_frame_t) :
  0 < fst (parse_frame m buf buf_len frame) -> buf_len <= buf_len' ->
  parse_frame m buf buf_len' frame = parse_frame m buf buf_len frame.
Proof.
  intros Hr Hle.
  pose proof (be_to_u16_range m (buf + 7)) as HL; unfold is_u16 in HL.
  destruct (parse_frame_cases m buf buf_len frame)
    as [[H E] | [(H & Hs & E) | [(H & Hs & Hl & E) | (H & Hs & Hl & E)]]];
    rewrite E in Hr; try lia.
  rewrite !parse_frame_complete by (assumption || lia); reflexivity.
Qed.

(** X7 — [parse_frame] reads no byte outside [buf .. buf + buf_len): two
    memories that agree on those [buf_len] bytes give the same return value
    and the same frame, whatever lies after them. *)
Theorem X7_parse_frame_reads_within_bounds (m m' : memory) (buf : ptr)
  (buf_len : Z) (frame : protocol_frame_t) :
  (forall a, buf <= a < buf + buf_len -> load m a = load m' a) ->
  parse_frame m buf buf_len frame = parse_frame m' buf buf_len frame.
Proof. apply parse_frame_ext. Qed.

Lemma X7_parse_frame_reads_within_bounds_witness :
  parse_frame (received nack_frame_bytes) 4096 12 blank_frame =
  parse_frame (received (nack_frame_bytes ++ [0xDE; 0xAD])) 4096 12 blank_frame.
Proof.
  apply (X7_parse_frame_reads_within_bounds
           (received nack_frame_bytes)
           (received (nack_frame_bytes ++ [0xDE; 0xAD])) 4096 12 blank_frame).
  intros a Ha.
  assert (E : a = 4096 + Z.of_nat (Z.to_nat (a - 4096))) by lia.
  destruct (Z.to_nat (a - 4096)) as [| [| [| [| [| [| [| [| [| [| [| [| k]]]]]]]]]]]];
    try (rewrite E; reflexivity).
  lia.
Defined.

(** X8 — What [parse_frame] can return: -1, -2, -3, or a total between 11
    and [buf_len] (at most 65546).  On success the total is 9 + len + 2, the
    payload view starts at [buf + 9] and, with the two checksum bytes after
    it, ends exactly at [buf + total], inside the buffer; [cmd], [len] and
    [crc] are 16-bit values and [crc] is the big-endian pair that follows
    the payload. *)
Theorem X8_parse_frame_result_bounds (m : memory) (buf : ptr) (buf_len : Z)
  (frame : protocol_frame_t) :
  let (r, f) := parse_frame m buf buf_len frame in
  (r = -1 \/ r = -2 \/ r = -3 \/ (11 <= r <= buf_len /\ r <= 65546)) /\
  (0 < r ->
   r = 9 + len f + 2 /\
   data f = buf + OFFSET_DATA /\
   data f + len f + 2 = buf + r /\
   is_u16 (cmd f) /\ is_u16 (len f) /\ is_u16 (crc f) /\
   crc f = be_to_u16 m (data f + len f)).
Proof.
  unfold_offsets.
  pose proof (be_to_u16_range m (buf + 7)) as HL; unfold is_u16 in HL.
  destruct (Z.lt_ge_cases buf_len 11) as [H | H].
  { rewrite parse_frame_too_short by assumption.
    split; [auto | intros; lia]. }
  destruct (check_sync m buf) eqn:Hs.
  2:{ rewrite parse_frame_bad_sync by assumption.
      split; [auto | intros; lia]. }
  destruct (Z.lt_ge_cases buf_len (9 + be_to_u16 m (buf + 7) + 2)) as [Hl | Hl].
  - rewrite parse_frame_incomplete by assumption.
    split; [auto | intros; lia].
  - rewrite parse_frame_complete by assumption.
    split; [do 3 right; lia |].
    intros _; cbn [len data cmd crc].
    repeat split; try apply be_to_u16_range; try lia.
    f_equal; lia.
Qed.

(** X9 — Bytes after a complete frame do not matter, and Incomplete can be
    resumed: a decode that succeeds with [buf_len] bytes gives the same
    result with any larger [buf_len]; a decode that returns -3 has stored
    the declared length in [len], and succeeds with total 9 + len + 2 as
    soon as [buf_len] reaches that total. *)
Theorem X9_parse_frame_more_bytes (m : memory) (buf : ptr)
  (buf_len buf_len' : Z) (frame : protocol_frame_t) :
  buf_len <= buf_len' ->
  let (r, f) := parse_frame m buf buf_len frame in
  (0 < r -> parse_frame m buf buf_len' frame = (r, f)) /\
  (r = -3 ->
   buf_len < 9 + len f + 2 /\
   (9 + len f + 2 <= buf_len' ->
    fst (parse_frame m buf buf_len' frame) = 9 + len f + 2)).
Proof.
  intros Hle.
  pose proof (be_to_u16_range m (buf + 7)) as HL; unfold is_u16 in HL.
  destruct (Z.lt_ge_cases buf_len 11) as [H | H].
  { rewrite parse_frame_too_short by assumption.
    split; intros; lia. }
  destruct (check_sync m buf) eqn:Hs.
  2:{ rewrite parse_frame_bad_sync by assumption.
      split; intros; lia. }
  destruct (Z.lt_ge_cases buf_len (9 + be_to_u16 m (buf + 7) + 2)) as [Hl | Hl].
  - rewrite parse_frame_incomplete by assumption.
    split; [intros; lia |].
    intros _; cbn [len]; split; [exact Hl |].
    intros Hge; rewrite parse_frame_complete by (assumption || lia).
    reflexivity.
  - rewrite parse_frame_complete by assumption.
    split; [| intros; lia].
    intros _; apply parse_frame_complete; (assumption || lia).
Qed.

Lemma X9_parse_frame_more_bytes_witness :
  let m := received (partial_frame_bytes ++ [0x33; 0x44; 0x55; 0x66; 0x77]) in
  fst (parse_frame m 4096 11 blank_frame) = -3 /\
  fst (parse_frame m 4096 16 blank_frame) = 16 /\
  parse_frame m 4096 20 blank_frame = parse_frame m 4096 16 blank_frame.
Proof.
  intros m.
  pose proof (X9_parse_frame_more_bytes m 4096 11 16 blank_frame ltac:(lia))
    as H1.
  pose proof (X9_parse_frame_more_bytes m 4096 16 20 blank_frame ltac:(lia))
    as H2.
  destruct (parse_frame m 4096 11 blank_frame) as [r1 f1] eqn:E1.
  destruct (parse_frame m 4096 16 blank_frame) as [r2 f2] eqn:E2.
  vm_compute in E1; injection E1 as <- <-.
  vm_compute in E2; injection E2 as <- <-.
  destruct H1 as [_ H1]; destruct (H1 eq_refl) as [_ H1'].
  destruct H2 as [H2 _].
  split; [reflexivity | split].
  - apply H1'; cbn; lia.
  - apply H2; lia.
Defined.

(** ** Checksum *)

Lemma crc16_shift_range c : is_u16 (crc16_shift c).
Proof.
  unfold crc16_shift.
  destruct (negb (Z.land c 1 =? 0)); apply u16_range.
Qed.

Lemma crc16_byte_range c b : is_u16 (crc16_byte c b).
Proof. unfold crc16_byte; cbn [Nat.iter]; apply crc16_shift_range. Qed.

Lemma crc16_fold_range l : forall c,
  is_u16 c -> is_u16 (fold_left crc16_byte l c).
Proof.
  induction l as [| b l IH]; intros c Hc; [exact Hc |].
  cbn [fold_left]; apply IH, crc16_byte_range.
Qed.

Lemma crc16_of_bytes_range l : is_u16 (crc16_of_bytes l).
Proof. apply crc16_fold_range; unfold is_u16; lia. Qed.

Lemma crc16_modbus_range m p n : is_u16 (crc16_modbus m p n).
Proof. rewrite crc16_modbus_bytes; apply crc16_of_bytes_range. Qed.

(** X10 — [crc16_modbus] reads only the [len] bytes it is given and
    returns a 16-bit value: memories that agree on [data .. data + len)
    have the same checksum. *)
Theorem X10_crc16_modbus_reads_range (m m' : memory) (p : ptr) (n : Z) :
  (forall a, p <= a < p + n -> load m a = load m' a) ->
  crc16_modbus m p n = crc16_modbus m' p n /\ is_u16 (crc16_modbus m p n).
Proof.
  intros H; split; [apply crc16_modbus_ext; exact H | apply crc16_modbus_range].
Qed.

Lemma X10_crc16_modbus_reads_range_witness :
  crc16_modbus (received (ascii_bytes "123456789")) 4096 9 =
  crc16_modbus (received (ascii_bytes "123456789abc")) 4096 9.
Proof.
  apply (X10_crc16_modbus_reads_range
           (received (ascii_bytes "123456789"))
           (received (ascii_bytes "123456789abc")) 4096 9).
  intros a Ha.
  assert (E : a = 4096 + Z.of_nat (Z.to_nat (a - 4096))) by lia.
  destruct (Z.to_nat (a - 4096)) as [| [| [| [| [| [| [| [| [| k]]]]]]]]];
    try (rewrite E; reflexivity).
  lia.
Defined.

Lemma all_from_spec P n : forall c,
  all_from P n c = true ->
  forall x, c <= x < c + Z.of_nat n -> P x = true.
Proof.
  induction n as [| n IH]; intros c H x Hx; [lia |].
  cbn [all_from] in H; apply andb_true_iff in H; destruct H as [Hc Hn].
  destruct (Z.eq_dec x c) as [-> | Hne]; [exact Hc |].
  apply (IH (c + 1)); [exact Hn | lia].
Qed.

(** [crc16_shift] can be undone on 16-bit registers (checked for each of
    the 65536 values). *)
Lemma crc16_unshift_shift c : is_u16 c -> crc16_unshift (crc16_shift c) = c.
Proof.
  intros Hc; apply Z.eqb_eq.
  apply (all_from_spec (fun c => crc16_unshift (crc16_shift c) =? c)
           (Z.to_nat 65536) 0); [vm_compute; reflexivity |].
  unfold is_u16 in Hc; lia.
Qed.

Lemma crc16_shift_inj c c' :
  is_u16 c -> is_u16 c' -> crc16_shift c = crc16_shift c' -> c = c'.
Proof.
  intros Hc Hc' E.
  rewrite <- (crc16_unshift_shift c), <- (crc16_unshift_shift c'), E
    by assumption.
  reflexivity.
Qed.

Lemma crc16_shifts_range k c : is_u16 c -> is_u16 (Nat.iter k crc16_shift c).
Proof.
  intros Hc; destruct k; [exact Hc | cbn [Nat.iter]; apply crc16_shift_range].
Qed.

Lemma crc16_shifts_inj k : forall c c',
  is_u16 c -> is_u16 c' ->
  Nat.iter k crc16_shift c = Nat.iter k crc16_shift c' -> c = c'.
Proof.
  induction k as [| k IH]; intros c c' Hc Hc' E; [exact E |].
  cbn [Nat.iter] in E.
  apply IH; try assumption.
  apply crc16_shift_inj; try apply crc16_shifts_range; assumption.
Qed.

Lemma lxor_u16 a b : is_u16 a -> is_u16 b -> is_u16 (Z.lxor a b).
Proof.
  unfold is_u16; intros Ha Hb.
  assert (Hn : 0 <= Z.lxor a b) by (apply Z.lxor_nonneg; lia).
  split; [exact Hn |].
  destruct (Z.eq_dec (Z.lxor a b) 0) as [-> | Hz]; [lia |].
  change 65536 with (2 ^ 16).
  apply Z.log2_lt_pow2; [lia |].
  pose proof (Z.log2_lxor a b ltac:(lia) ltac:(lia)) as Hl.
  assert (La : Z.log2 a < 16).
  { destruct (Z.eq_dec a 0) as [-> | ?]; [cbn; lia |].
    apply Z.log2_lt_pow2; [lia | change (2 ^ 16) with 65536; lia]. }
  assert (Lb : Z.log2 b < 16).
  { destruct (Z.eq_dec b 0) as [-> | ?]; [cbn; lia |].
    apply Z.log2_lt_pow2; [lia | change (2 ^ 16) with 65536; lia]. }
  lia.
Qed.

Lemma lxor_cancel_l a b b' : Z.lxor a b = Z.lxor a b' -> b = b'.
Proof.
  intros E.
  rewrite <- (Z.lxor_0_l b), <- (Z.lxor_0_l b'), <- (Z.lxor_nilpotent a).
  rewrite !Z.lxor_assoc, E; reflexivity.
Qed.

Lemma lxor_cancel_r a a' b : Z.lxor a b = Z.lxor a' b -> a = a'.
Proof.
  rewrite (Z.lxor_comm a), (Z.lxor_comm a'); apply lxor_cancel_l.
Qed.

Lemma crc16_byte_inj_byte c b b' :
  is_u16 c -> is_u8 b -> is_u8 b' ->
  crc16_byte c b = crc16_byte c b' -> b = b'.
Proof.
  intros Hc Hb Hb' E; unfold crc16_byte in E.
  assert (Wb : is_u16 b) by (unfold is_u8, is_u16 in *; lia).
  assert (Wb' : is_u16 b') by (unfold is_u8, is_u16 in *; lia).
  apply crc16_shifts_inj in E; try apply u16_range.
  rewrite !u16_small in E by (apply lxor_u16; assumption).
  apply (lxor_cancel_l c); exact E.
Qed.

Lemma crc16_byte_inj_register c c' b :
  is_u16 c -> is_u16 c' -> is_u8 b ->
  crc16_byte c b = crc16_byte c' b -> c = c'.
Proof.
  intros Hc Hc' Hb E; unfold crc16_byte in E.
  assert (Wb : is_u16 b) by (unfold is_u8, is_u16 in *; lia).
  apply crc16_shifts_inj in E; try apply u16_range.
  rewrite !u16_small in E by (apply lxor_u16; assumption).
  apply (lxor_cancel_r c c' b); exact E.
Qed.

Lemma crc16_fold_inj l : forall c c',
  Forall is_u8 l -> is_u16 c -> is_u16 c' ->
  fold_left crc16_byte l c = fold_left crc16_byte l c' -> c = c'.
Proof.
  induction l as [| b l IH]; intros c c' Hl Hc Hc' E; [exact E |].
  inversion Hl as [| ? ? Hb Hl']; subst.
  cbn [fold_left] in E.
  apply IH in E; try assumption; try apply crc16_byte_range.
  apply (crc16_byte_inj_register c c' b); assumption.
Qed.

Lemma crc16_of_bytes_one_byte l1 l2 b b' :
  is_u8 b -> is_u8 b' -> Forall is_u8 l2 -> b <> b' ->
  crc16_of_bytes (l1 ++ b :: l2) <> crc16_of_bytes (l1 ++ b' :: l2).
Proof.
  intros Hb Hb' Hl2 Hne E; apply Hne.
  unfold crc16_of_bytes in E.
  rewrite !fold_left_app in E; cbn [fold_left] in E.
  apply crc16_fold_inj in E; try assumption; try apply crc16_byte_range.
  apply crc16_byte_inj_byte in E; try assumption.
  apply crc16_fold_range; unfold is_u16; lia.
Qed.

Lemma loadbytes_Forall_u8 m p n :
  (forall a, p <= a < p + n -> is_u8 (load m a)) ->
  Forall is_u8 (loadbytes m p n).
Proof.
  unfold loadbytes; intros H.
  assert (H' : forall a, p <= a < p + Z.of_nat (Z.to_nat n) -> is_u8 (load m a))
    by (intros a Ha; apply H; lia).
  clear H; revert p H'.
  induction (Z.to_nat n) as [| k IH]; intros p H; [constructor |].
  cbn [loadbytes_from]; constructor.
  - apply H; lia.
  - apply IH; intros a Ha; apply H; lia.
Qed.

Lemma mem_of_list_u8 base l a :
  Forall is_u8 l -> is_u8 (load (mem_of_list base l) a).
Proof.
  intros Hl; unfold load, mem_of_list.
  destruct (base <=? a); [| unfold is_u8; lia].
  destruct (nth_in_or_default (Z.to_nat (a - base)) l 0) as [Hin | ->].
  - rewrite Forall_forall in Hl; apply Hl; exact Hin.
  - unfold is_u8; lia.
Qed.

Lemma crc16_modbus_one_byte (m : memory) (p : ptr) (n i v : Z) :
  0 <= i < n ->
  (forall a, p + i <= a < p + n -> is_u8 (load m a)) ->
  is_u8 v -> v <> load m (p + i) ->
  crc16_modbus (store m (p + i) v) p n <> crc16_modbus m p n.
Proof.
  intros Hi Hbytes Hv Hne.
  rewrite !crc16_modbus_bytes.
  replace n with (i + (1 + (n - i - 1))) by lia.
  rewrite !(loadbytes_app _ p i), !(loadbytes_app _ (p + i) 1) by lia.
  rewrite (loadbytes_ext (store m (p + i) v) m p i)
    by (intros x Hx; apply load_store_other; lia).
  rewrite (loadbytes_ext (store m (p + i) v) m (p + i + 1))
    by (intros x Hx; apply load_store_other; lia).
  unfold loadbytes at 2 4; change (Z.to_nat 1) with 1%nat.
  cbn [loadbytes_from app].
  rewrite load_store_same, (u8_small v) by exact Hv.
  apply crc16_of_bytes_one_byte; try assumption.
  - apply Hbytes; lia.
  - apply loadbytes_Forall_u8; intros a Ha; apply Hbytes; lia.
Qed.

(** X11 — The checksum detects every change of a single byte: if one byte
    of the range is overwritten with a different byte value, and the bytes
    after it are byte values, [crc16_modbus] over the range changes. *)
Theorem X11_crc16_detects_one_byte_change (m : memory) (p : ptr) (n i v : Z) :
  0 <= i < n ->
  (forall a, p + i <= a < p + n -> is_u8 (load m a)) ->
  is_u8 v -> v <> load m (p + i) ->
  crc16_modbus (store m (p + i) v) p n <> crc16_modbus m p n.
Proof. apply crc16_modbus_one_byte. Qed.

Lemma X11_crc16_detects_one_byte_change_witness :
  crc16_modbus (store (received nack_frame_bytes) (4098 + 2) 0x08) 4098 8
  <> crc16_modbus (received nack_frame_bytes) 4098 8.
Proof.
  apply (X11_crc16_detects_one_byte_change
           (received nack_frame_bytes) 4098 8 2 0x08); [lia | | | ].
  - intros a Ha; apply mem_of_list_u8.
    repeat constructor; unfold is_u8; lia.
  - unfold is_u8; lia.
  - vm_compute; discriminate.
Defined.

(** ** Encoder and decoder together *)

Lemma build_frame_crc_field buf ty sq cm src data_len s :
  0 <= data_len ->
  let m' := mem (snd (build_frame buf ty sq cm src data_len s)) in
  be_to_u16 m' (buf + (9 + data_len)) =
  crc16_modbus m' (buf + 2) (u16 (7 + data_len)).
Proof.
  intros Hlen m'.
  pose proof (build_frame_crc buf ty sq cm src data_len s Hlen) as Hc.
  cbv zeta in Hc; fold m' in Hc.
  replace (buf + (9 + data_len)) with (buf + 9 + data_len) by lia.
  rewrite (be_to_u16_of_bytes _ _ _ _ Hc).
  apply be16_join, crc16_modbus_range.
Qed.

(** What [parse_frame] makes of a frame [build_frame] has just written. *)
Lemma parse_built_frame buf ty sq cm src data_len s buf_len frame :
  is_u8 ty -> is_u8 sq -> is_u16 cm -> is_u16 data_len ->
  9 + data_len + 2 <= buf_len ->
  let m' := mem (snd (build_frame buf ty sq cm src data_len s)) in
  parse_frame m' buf buf_len frame =
  (9 + data_len + 2,
   mkFrame FRAME_VERSION ty sq cm data_len (buf + 9)
     (crc16_modbus m' (buf + 2) (u16 (7 + data_len)))).
Proof.
  intros Hty Hsq Hcm Hlen Hbuf m'.
  assert (H0 : 0 <= data_len) by (unfold is_u16 in Hlen; lia).
  destruct (build_frame_header_loads buf ty sq cm src data_len s H0)
    as (L0 & L1 & L2 & L3 & L4 & _).
  pose proof (build_frame_len_field buf ty sq cm src data_len s Hlen) as HL.
  pose proof (build_frame_cmd_field buf ty sq cm src data_len s Hcm H0) as HC.
  pose proof (build_frame_crc_field buf ty sq cm src data_len s H0) as HK.
  cbv zeta in *; fold m' in L0, L1, L2, L3, L4, HL, HC, HK.
  rewrite parse_frame_complete
    by (rewrite ?HL; try apply check_sync_true; try split; try assumption; lia).
  rewrite HL, HC, HK, L2, L3, L4, (u8_small ty), (u8_small sq) by assumption.
  reflexivity.
Qed.

(** X12 — Every frame the encoder emits passes the receiver's check: for a
    payload length up to 65524, [parse_frame] on the output of [build_frame]
    succeeds with the returned length, reports version 0x10, and the [crc]
    field it extracts equals [crc16_modbus] recomputed over the 7 + len
    bytes from the version byte on.  This holds for any payload pointer. *)
Theorem X12_built_frame_passes_checksum (buf : ptr) (ty sq cm : Z) (src : ptr)
  (data_len : Z) (s : state) (frame : protocol_frame_t) :
  is_u8 ty -> is_u8 sq -> is_u16 cm -> 0 <= data_len <= 65524 ->
  let (n, s') := build_frame buf ty sq cm src data_len s in
  let (r, f) := parse_frame (mem s') buf n frame in
  r = n /\ version f = FRAME_VERSION /\
  crc f = crc16_modbus (mem s') (buf + OFFSET_VER) (7 + len f).
Proof.
  intros Hty Hsq Hcm Hlen; unfold_offsets.
  pose proof (build_frame_ret buf ty sq cm src data_len s) as Hn.
  pose proof (parse_built_frame buf ty sq cm src data_len s
                (9 + data_len + 2) frame Hty Hsq Hcm
                ltac:(unfold is_u16; lia) ltac:(lia)) as HP.
  destruct (build_frame buf ty sq cm src data_len s) as [n s'].
  cbn [fst snd] in *; cbv zeta in HP; subst n; rewrite HP.
  cbn [version crc len].
  rewrite (u16_small (7 + data_len)) by (unfold is_u16; lia).
  repeat split.
Qed.

Lemma X12_built_frame_passes_checksum_witness :
  let (n, s') := build_frame 4096 TYPE_NOTIFY 9 CMD_QUERY_POWER NULL 0
                   initial_state in
  let (r, f) := parse_frame (mem s') 4096 n blank_frame in
  r = n /\ version f = FRAME_VERSION /\
  crc f = crc16_modbus (mem s') (4096 + OFFSET_VER) (7 + len f).
Proof.
  apply (X12_built_frame_passes_checksum 4096 TYPE_NOTIFY 9 CMD_QUERY_POWER
           NULL 0 initial_state blank_frame);
    unfold is_u8, is_u16, TYPE_NOTIFY, CMD_QUERY_POWER; lia.
Defined.

(** X13 — [build_frame] writes inside the frame only: every byte outside
    [buf .. buf + 9 + data_len + 2) is as before, the sequence counter is as
    before, and a payload array that does not overlap the frame is as
    before. *)
Theorem X13_build_frame_writes_only_frame (buf : ptr) (ty sq cm : Z)
  (src : ptr) (data_len : Z) (s : state) :
  0 <= data_len ->
  let s' := snd (build_frame buf ty sq cm src data_len s) in
  (forall a, a < buf \/ buf + 9 + data_len + 2 <= a ->
             load (mem s') a = load (mem s) a) /\
  _seq_counter s' = _seq_counter s /\
  (src + data_len <= buf \/ buf + 9 + data_len + 2 <= src ->
   loadbytes (mem s') src data_len = loadbytes (mem s) src data_len).
Proof.
  intros Hlen s'; subst s'.
  split; [| split].
  - intros a Ha; apply build_frame_outside; assumption.
  - apply build_frame_counter.
  - intros Hd; apply loadbytes_ext; intros x Hx.
    apply build_frame_outside; [assumption | lia].
Qed.

Lemma X13_build_frame_writes_only_frame_witness :
  let s := mkState 0 (mem_of_list 4090 [1; 2; 3; 4; 5; 6]) in
  let s' := snd (build_frame 4096 TYPE_ACK 7 0x3001 NULL 0 s) in
  loadbytes (mem s') 4090 6 = [1; 2; 3; 4; 5; 6] /\
  load (mem s') (4096 + 11) = 0.
Proof.
  intros s s'.
  destruct (X13_build_frame_writes_only_frame 4096 TYPE_ACK 7 0x3001 NULL 0 s
              ltac:(lia)) as (Hout & _ & Hsrc).
  split.
  - rewrite (loadbytes_ext (mem s') (mem s) 4090 6);
      [reflexivity | intros x Hx; apply Hout; lia].
  - rewrite Hout by lia; reflexivity.
Defined.

(** X14 — With a NULL payload pointer and a non-zero [data_len] nothing is
    copied: [build_frame] still returns 9 + data_len + 2 and writes
    [data_len] into the len field, and the payload area of the frame keeps
    the bytes the buffer held before the call. *)
Theorem X14_build_frame_null_payload (buf : ptr) (ty sq cm : Z)
  (data_len : Z) (s : state) :
  is_u16 data_len ->
  let (n, s') := build_frame buf ty sq cm NULL data_len s in
  n = 9 + data_len + 2 /\
  be_to_u16 (mem s') (buf + OFFSET_LEN_H) = data_len /\
  loadbytes (mem s') (buf + OFFSET_DATA) data_len
  = loadbytes (mem s) (buf + OFFSET_DATA) data_len.
Proof.
  intros Hlen; unfold_offsets.
  pose proof (build_frame_ret buf ty sq cm 0 data_len s) as Hn.
  pose proof (build_frame_len_field buf ty sq cm 0 data_len s Hlen) as HL.
  assert (HP : loadbytes (mem (snd (build_frame buf ty sq cm 0 data_len s)))
                 (buf + 9) data_len
               = loadbytes (mem s) (buf + 9) data_len).
  { apply loadbytes_ext; intros x Hx.
    run_builder; unfold_offsets.
    replace (negb (0 =? 0) && (0 <? data_len)) with false by reflexivity.
    cbn [fst snd mem _seq_counter]; cbv zeta.
    load_through; reflexivity. }
  destruct (build_frame buf ty sq cm 0 data_len s) as [n s'].
  cbn [fst snd] in *; auto.
Qed.

Lemma X14_build_frame_null_payload_witness :
  let s := mkState 0 (mem_of_list 4096 [0; 0; 0; 0; 0; 0; 0; 0; 0; 0x5A; 0xA5]) in
  let (n, s') := build_frame 4096 TYPE_RESPONSE 1 0x0101 NULL 2 s in
  n = 13 /\
  be_to_u16 (mem s') (4096 + OFFSET_LEN_H) = 2 /\
  loadbytes (mem s') (4096 + OFFSET_DATA) 2 = [0x5A; 0xA5].
Proof.
  intros s.
  apply (X14_build_frame_null_payload 4096 TYPE_RESPONSE 1 0x0101 2 s).
  unfold is_u16; lia.
Defined.

(** ** Builders *)

(** A built frame parses back to the builder's arguments, for any buffer
    length that covers it. *)
Lemma built_frame_roundtrip buf ty sq cm src data_len s buf_len frame :
  is_u8 ty -> is_u8 sq -> is_u16 cm -> is_u16 data_len ->
  9 + data_len + 2 <= buf_len ->
  src <> NULL ->
  src + data_len <= buf \/ buf + 9 + data_len + 2 <= src ->
  let (n, s') := build_frame buf ty sq cm src data_len s in
  n = 9 + data_len + 2 /\
  _seq_counter s' = _seq_counter s /\
  let (r, f) := parse_frame (mem s') buf buf_len frame in
  r = 9 + data_len + 2 /\
  type f = ty /\ seq f = sq /\ cmd f = cm /\ len f = data_len /\
  frame_payload (mem s') f = loadbytes (mem s) src data_len.
Proof.
  intros Hty Hsq Hcm Hlen Hbuf Hnull Hdisj.
  assert (H0 : 0 <= data_len) by (unfold is_u16 in Hlen; lia).
  pose proof (build_frame_ret buf ty sq cm src data_len s) as Hn.
  pose proof (build_frame_counter buf ty sq cm src data_len s) as Hk.
  pose proof (parse_built_frame buf ty sq cm src data_len s buf_len frame
                Hty Hsq Hcm Hlen Hbuf) as HP.
  pose proof (build_frame_payload buf ty sq cm src data_len s Hnull Hdisj)
    as Hpay.
  destruct (build_frame buf ty sq cm src data_len s) as [n s'].
  cbn [fst snd] in *; cbv zeta in HP; rewrite HP.
  unfold frame_payload; cbn [type seq cmd len data].
  repeat split; assumption.
Qed.

Lemma request_roundtrip buf cm src data_len s buf_len frame :
  is_u8 (_seq_counter s) -> is_u16 cm -> is_u16 data_len ->
  9 + data_len + 2 <= buf_len ->
  src <> NULL ->
  src + data_len <= buf \/ buf + 9 + data_len + 2 <= src ->
  let (n, s') := build_request buf cm src data_len s in
  n = 9 + data_len + 2 /\
  _seq_counter s' = u8 (_seq_counter s + 1) /\
  let (r, f) := parse_frame (mem s') buf buf_len frame in
  r = 9 + data_len + 2 /\
  type f = TYPE_REQUEST /\ seq f = _seq_counter s /\ cmd f = cm /\
  len f = data_len /\
  frame_payload (mem s') f = loadbytes (mem s) src data_len.
Proof.
  intros Hc Hcm Hlen Hbuf Hnull Hdisj.
  rewrite build_request_run.
  apply (built_frame_roundtrip buf TYPE_REQUEST (_seq_counter s) cm src
           data_len (mkState (u8 (_seq_counter s + 1)) (mem s)) buf_len frame);
    try assumption.
  unfold is_u8, TYPE_REQUEST; lia.
Qed.

(** X15 — [build_nack] emits a 12-byte frame that parses back as a Nack
    with the given seq and cmd and the one-byte payload [error_code]; the
    sequence counter is not touched. *)
Theorem X15_build_nack_frame (error_code_p buf : ptr) (sq cm error_code : Z)
  (s : state) (frame : protocol_frame_t) :
  is_u8 sq -> is_u16 cm -> is_u8 error_code ->
  error_code_p <> NULL ->
  error_code_p + 1 <= buf \/ buf + 12 <= error_code_p ->
  let (n, s') := build_nack error_code_p buf sq cm error_code s in
  n = 12 /\
  _seq_counter s' = _seq_counter s /\
  let (r, f) := parse_frame (mem s') buf n frame in
  r = 12 /\
  type f = TYPE_NACK /\ seq f = sq /\ cmd f = cm /\ len f = 1 /\
  frame_payload (mem s') f = [error_code].
Proof.
  intros Hsq Hcm He Hnull Hdisj.
  rewrite build_nack_run.
  set (s1 := mkState _ _).
  pose proof (built_frame_roundtrip buf TYPE_NACK sq cm error_code_p 1 s1 12
                frame ltac:(unfold is_u8, TYPE_NACK; lia) Hsq Hcm
                ltac:(unfold is_u16; lia) ltac:(lia) Hnull ltac:(lia)) as H.
  destruct (build_frame buf TYPE_NACK sq cm error_code_p 1 s1) as [n s'].
  cbv beta iota in H; destruct H as (Hn & Hk & H); subst n.
  split; [reflexivity | split; [exact Hk |]].
  change (9 + 1 + 2) with 12.
  destruct (parse_frame (mem s') buf 12 frame) as [r f].
  cbv beta iota in H; destruct H as (Hr & Ht & Hs & Hc & Hl & Hp).
  repeat split; try assumption.
  rewrite Hp; subst s1; cbn [mem].
  unfold loadbytes; change (Z.to_nat 1) with 1%nat; cbn [loadbytes_from].
  rewrite load_store_same, u8_small by assumption; reflexivity.
Qed.

Lemma X15_build_nack_frame_witness :
  let (n, s') := build_nack 8192 4096 7 0x3001 0x03 initial_state in
  n = 12 /\
  _seq_counter s' = 0 /\
  let (r, f) := parse_frame (mem s') 4096 n blank_frame in
  r = 12 /\
  type f = 0x04 /\ seq f = 7 /\ cmd f = 0x3001 /\ len f = 1 /\
  frame_payload (mem s') f = [0x03].
Proof.
  apply (X15_build_nack_frame 8192 4096 7 0x3001 0x03 initial_state
           blank_frame); unfold is_u8, is_u16, NULL; lia.
Defined.

(** X16 — [build_ack] emits the shortest frame there is: 11 bytes
    ([FRAME_MIN_SIZE]), which parse back as an Ack with the given seq and
    cmd, len 0 and an empty payload; the sequence counter is not touched. *)
Theorem X16_build_ack_frame (buf : ptr) (sq cm : Z) (s : state)
  (frame : protocol_frame_t) :
  is_u8 sq -> is_u16 cm ->
  let (n, s') := build_ack buf sq cm s in
  n = FRAME_MIN_SIZE /\
  _seq_counter s' = _seq_counter s /\
  let (r, f) := parse_frame (mem s') buf n frame in
  r = FRAME_MIN_SIZE /\
  type f = TYPE_ACK /\ seq f = sq /\ cmd f = cm /\ len f = 0 /\
  frame_payload (mem s') f = [].
Proof.
  intros Hsq Hcm; unfold build_ack, FRAME_MIN_SIZE.
  pose proof (build_frame_ret buf TYPE_ACK sq cm NULL 0 s) as Hn.
  pose proof (build_frame_counter buf TYPE_ACK sq cm NULL 0 s) as Hk.
  pose proof (parse_built_frame buf TYPE_ACK sq cm NULL 0 s 11 frame
                ltac:(unfold is_u8, TYPE_ACK; lia) Hsq Hcm
                ltac:(unfold is_u16; lia) ltac:(lia)) as HP.
  destruct (build_frame buf TYPE_ACK sq cm NULL 0 s) as [n s'].
  cbn [fst snd] in *; cbv zeta in HP; subst n.
  change (9 + 0 + 2) with 11 in *; rewrite HP.
  unfold frame_payload; cbn [type seq cmd len data].
  repeat split; assumption.
Qed.

Lemma X16_build_ack_frame_witness :
  let (n, s') := build_ack 4096 7 0x3001 initial_state in
  n = 11 /\
  _seq_counter s' = 0 /\
  let (r, f) := parse_frame (mem s') 4096 n blank_frame in
  r = 11 /\
  type f = 0x03 /\ seq f = 7 /\ cmd f = 0x3001 /\ len f = 0 /\
  frame_payload (mem s') f = [].
Proof.
  apply (X16_build_ack_frame 4096 7 0x3001 initial_state blank_frame);
    unfold is_u8, is_u16; lia.
Defined.

Lemma loadbytes_four_of_nine m a b0 b1 b2 b3 b4 b5 b6 b7 b8 :
  loadbytes m a 9 = [b0; b1; b2; b3; b4; b5; b6; b7; b8] ->
  load m a = b0 /\
  loadbytes m (a + 1) 4 = [b1; b2; b3; b4] /\
  loadbytes m (a + 5) 4 = [b5; b6; b7; b8].
Proof.
  unfold loadbytes.
  change (Z.to_nat 9) with 9%nat; change (Z.to_nat 4) with 4%nat.
  cbn [loadbytes_from]; intros H.
  injection H as H0 H1 H2 H3 H4 H5 H6 H7 H8.
  split; [exact H0 | split].
  - rewrite H1, H2, H3, H4; reflexivity.
  - replace (a + 5) with (a + 1 + 1 + 1 + 1 + 1) by lia.
    rewrite H5, H6, H7, H8; reflexivity.
Qed.

(** X17 — Motor-rotate round trip: for every motor id, angle and velocity,
    the frame [build_motor_rotate] writes parses back as a Request with the
    current sequence number, command 0x3001 and len 9, whose payload holds
    the motor id at offset 0 and, read with [be_to_float], the same angle at
    offset 1 and the same velocity at offset 5, bit for bit; the sequence
    counter has advanced by one. *)
Theorem X17_motor_rotate_roundtrip (data_p buf : ptr)
  (motor_id angle velocity : Z) (s : state) (frame : protocol_frame_t) :
  is_u8 (_seq_counter s) ->
  is_u8 motor_id -> is_u32 angle -> is_u32 velocity ->
  data_p <> NULL ->
  data_p + 9 <= buf \/ buf + 20 <= data_p ->
  let (n, s') := build_motor_rotate data_p buf motor_id angle velocity s in
  n = 20 /\
  _seq_counter s' = u8 (_seq_counter s + 1) /\
  let (r, f) := parse_frame (mem s') buf n frame in
  r = 20 /\
  type f = TYPE_REQUEST /\ seq f = _seq_counter s /\
  cmd f = CMD_MOTOR_ROTATE /\ len f = 9 /\
  load (mem s') (data f) = motor_id /\
  be_to_float (mem s') (data f + 1) = angle /\
  be_to_float (mem s') (data f + 5) = velocity.
Proof.
  intros Hc Hid Ha Hv Hnull Hdisj.
  rewrite build_motor_rotate_run.
  set (s1 := mkState _ _).
  pose proof (build_frame_ret buf TYPE_REQUEST (_seq_counter s)
                CMD_MOTOR_ROTATE data_p 9 s1) as Hn.
  pose proof (build_frame_counter buf TYPE_REQUEST (_seq_counter s)
                CMD_MOTOR_ROTATE data_p 9 s1) as Hk.
  pose proof (parse_built_frame buf TYPE_REQUEST (_seq_counter s)
                CMD_MOTOR_ROTATE data_p 9 s1 20 frame
                ltac:(unfold is_u8, TYPE_REQUEST; lia) Hc
                ltac:(unfold is_u16, CMD_MOTOR_ROTATE; lia)
                ltac:(unfold is_u16; lia) ltac:(lia)) as HP.
  pose proof (build_frame_payload buf TYPE_REQUEST (_seq_counter s)
                CMD_MOTOR_ROTATE data_p 9 s1 Hnull ltac:(lia)) as Hpay.
  destruct (build_frame buf TYPE_REQUEST (_seq_counter s)
              CMD_MOTOR_ROTATE data_p 9 s1) as [n s'].
  cbn [fst snd] in *; cbv zeta in HP; subst n.
  change (9 + 9 + 2) with 20 in *; rewrite HP.
  cbn [type seq cmd len data].
  subst s1; cbn [mem _seq_counter] in Hpay, Hk.
  rewrite motor_rotate_payload in Hpay.
  apply loadbytes_four_of_nine in Hpay; destruct Hpay as (P0 & P1 & P2).
  repeat split; try assumption.
  - rewrite P0; apply u8_small; exact Hid.
  - rewrite (be_to_float_bytes _ _ _ _ _ _ P1); apply be32_join; exact Ha.
  - rewrite (be_to_float_bytes _ _ _ _ _ _ P2); apply be32_join; exact Hv.
Qed.

Lemma X17_motor_rotate_roundtrip_witness :
  let (n, s') :=
    build_motor_rotate 8192 4096 0x02 0xC2B40000 0x7FC00000
      (mkState 255 zero_memory) in
  n = 20 /\
  _seq_counter s' = 0 /\
  let (r, f) := parse_frame (mem s') 4096 n blank_frame in
  r = 20 /\
  type f = 0 /\ seq f = 255 /\ cmd f = 0x3001 /\ len f = 9 /\
  load (mem s') (data f) = 0x02 /\
  be_to_float (mem s') (data f + 1) = 0xC2B40000 /\
  be_to_float (mem s') (data f + 5) = 0x7FC00000.
Proof.
  apply (X17_motor_rotate_roundtrip 8192 4096 0x02 0xC2B40000 0x7FC00000
           (mkState 255 zero_memory) blank_frame);
    unfold is_u8, is_u32, NULL; cbn [_seq_counter]; lia.
Defined.

(** A request whose payload is one byte taken from a parameter. *)
Lemma one_byte_request (cm : Z) (p buf : ptr) (v : Z) (s : state)
  (frame : protocol_frame_t) :
  is_u8 (_seq_counter s) -> is_u16 cm -> is_u8 v ->
  p <> NULL ->
  p + 1 <= buf \/ buf + 12 <= p ->
  let (n, s') :=
    (poke (fun m => store m p v) ;;; build_request buf cm p 1) s in
  n = 12 /\
  _seq_counter s' = u8 (_seq_counter s + 1) /\
  let (r, f) := parse_frame (mem s') buf n frame in
  r = 12 /\
  type f = TYPE_REQUEST /\ seq f = _seq_counter s /\ cmd f = cm /\
  len f = 1 /\ frame_payload (mem s') f = [v].
Proof.
  intros Hc Hcm Hv Hnull Hdisj.
  change ((poke (fun m => store m p v) ;;; build_request buf cm p 1) s)
    with (build_request buf cm p 1
            (mkState (_seq_counter s) (store (mem s) p v))).
  set (s1 := mkState _ _).
  pose proof (request_roundtrip buf cm p 1 s1 12 frame Hc Hcm
                ltac:(unfold is_u16; lia) ltac:(lia) Hnull ltac:(lia)) as H.
  destruct (build_request buf cm p 1 s1) as [n s'].
  cbv beta iota in H; destruct H as (Hn & Hk & H); subst n.
  change (9 + 1 + 2) with 12.
  split; [reflexivity | split; [exact Hk |]].
  destruct (parse_frame (mem s') buf 12 frame) as [r f].
  cbv beta iota in H; destruct H as (Hr & Ht & Hs & Hcmd & Hl & Hp).
  repeat split; try assumption.
  rewrite Hp; subst s1; cbn [mem].
  unfold loadbytes; change (Z.to_nat 1) with 1%nat; cbn [loadbytes_from].
  rewrite load_store_same, u8_small by assumption; reflexivity.
Qed.

(** X18 — The four one-parameter request builders ([build_motor_enable],
    [build_motor_disable], [build_motor_get_pos], [build_sensor_read]) each
    emit a 12-byte Request with the current sequence number, their own
    command code (0x3002, 0x3003, 0x3006, 0x4001) and the parameter as the
    one-byte payload, and advance the sequence counter by one. *)
Theorem X18_one_parameter_requests (p buf : ptr) (v : Z) (s : state)
  (frame : protocol_frame_t) :
  is_u8 (_seq_counter s) -> is_u8 v ->
  p <> NULL ->
  p + 1 <= buf \/ buf + 12 <= p ->
  Forall
    (fun bc : (ptr -> ptr -> Z -> M Z) * Z =>
       let (n, s') := fst bc p buf v s in
       n = 12 /\
       _seq_counter s' = u8 (_seq_counter s + 1) /\
       let (r, f) := parse_frame (mem s') buf n frame in
       r = 12 /\
       type f = TYPE_REQUEST /\ seq f = _seq_counter s /\ cmd f = snd bc /\
       len f = 1 /\ frame_payload (mem s') f = [v])
    [ (build_motor_enable, 0x3002); (build_motor_disable, 0x3003);
      (build_motor_get_pos, 0x3006); (build_sensor_read, 0x4001) ].
Proof.
  intros Hc Hv Hnull Hdisj.
  repeat constructor; cbn [fst snd].
  - apply (one_byte_request CMD_MOTOR_ENABLE); try assumption.
    unfold is_u16, CMD_MOTOR_ENABLE; lia.
  - apply (one_byte_request CMD_MOTOR_DISABLE); try assumption.
    unfold is_u16, CMD_MOTOR_DISABLE; lia.
  - apply (one_byte_request CMD_MOTOR_GET_POS); try assumption.
    unfold is_u16, CMD_MOTOR_GET_POS; lia.
  - apply (one_byte_request CMD_SENSOR_READ_TEMP); try assumption.
    unfold is_u16, CMD_SENSOR_READ_TEMP; lia.
Qed.

Lemma X18_one_parameter_requests_witness :
  let (n, s') := build_motor_get_pos 8192 4096 MOTOR_ID_X initial_state in
  n = 12 /\
  _seq_counter s' = u8 (_seq_counter initial_state + 1) /\
  let (r, f) := parse_frame (mem s') 4096 n blank_frame in
  r = 12 /\
  type f = TYPE_REQUEST /\ seq f = _seq_counter initial_state /\
  cmd f = 0x3006 /\ len f = 1 /\ frame_payload (mem s') f = [MOTOR_ID_X].
Proof.
  assert (H1 : is_u8 (_seq_counter initial_state)) by (unfold is_u8; cbn; lia).
  assert (H2 : is_u8 MOTOR_ID_X) by (unfold is_u8, MOTOR_ID_X; lia).
  assert (H3 : 8192 <> NULL) by discriminate.
  pose proof (X18_one_parameter_requests 8192 4096 MOTOR_ID_X initial_state
                blank_frame H1 H2 H3 ltac:(lia)) as H.
  inversion H as [| ? ? _ H']; inversion H' as [| ? ? _ H''].
  inversion H'' as [| ? ? Hget _].
  exact Hget.
Defined.

(** X19 — [build_device_ctrl] emits a 13-byte Request with the current
    sequence number and the given command code, whose two payload bytes are
    the device id and the state, in this order, and advances the sequence
    counter by one. *)
Theorem X19_build_device_ctrl_frame (data_p buf : ptr)
  (cm device_id dev_state : Z) (s : state) (frame : protocol_frame_t) :
  is_u8 (_seq_counter s) -> is_u16 cm -> is_u8 device_id -> is_u8 dev_state ->
  data_p <> NULL ->
  data_p + 2 <= buf \/ buf + 13 <= data_p ->
  let (n, s') := build_device_ctrl data_p buf cm device_id dev_state s in
  n = 13 /\
  _seq_counter s' = u8 (_seq_counter s + 1) /\
  let (r, f) := parse_frame (mem s') buf n frame in
  r = 13 /\
  type f = TYPE_REQUEST /\ seq f = _seq_counter s /\ cmd f = cm /\
  len f = 2 /\ frame_payload (mem s') f = [device_id; dev_state].
Proof.
  intros Hc Hcm Hid Hst Hnull Hdisj.
  change (build_device_ctrl data_p buf cm device_id dev_state s)
    with (build_request buf cm data_p 2
            (mkState (_seq_counter s)
               (store (store (mem s) (data_p + 0) device_id)
                  (data_p + 1) dev_state))).
  set (s1 := mkState _ _).
  pose proof (request_roundtrip buf cm data_p 2 s1 13 frame Hc Hcm
                ltac:(unfold is_u16; lia) ltac:(lia) Hnull ltac:(lia)) as H.
  destruct (build_request buf cm data_p 2 s1) as [n s'].
  cbv beta iota in H; destruct H as (Hn & Hk & H); subst n.
  change (9 + 2 + 2) with 13.
  split; [reflexivity | split; [exact Hk |]].
  destruct (parse_frame (mem s') buf 13 frame) as [r f].
  cbv beta iota in H; destruct H as (Hr & Ht & Hs & Hcmd & Hl & Hp).
  repeat split; try assumption.
  rewrite Hp; subst s1; cbn [mem].
  unfold loadbytes; change (Z.to_nat 2) with 2%nat; cbn [loadbytes_from].
  f_equal; [| f_equal]; load_through; apply u8_small; assumption.
Qed.

Lemma X19_build_device_ctrl_frame_witness :
  let (n, s') :=
    build_device_ctrl 8192 4096 CMD_DEV_LED 0x20 0x02 initial_state in
  n = 13 /\
  _seq_counter s' = u8 (_seq_counter initial_state + 1) /\
  let (r, f) := parse_frame (mem s') 4096 n blank_frame in
  r = 13 /\
  type f = TYPE_REQUEST /\ seq f = _seq_counter initial_state /\
  cmd f = CMD_DEV_LED /\
  len f = 2 /\ frame_payload (mem s') f = [0x20; 0x02].
Proof.
  apply (X19_build_device_ctrl_frame 8192 4096 CMD_DEV_LED 0x20 0x02
           initial_state blank_frame);
    unfold is_u8, is_u16, CMD_DEV_LED, NULL; cbn [_seq_counter initial_state];
    lia.
Defined.

(** ** Frames in a stream *)

(** X20 — Two frames written back to back are decoded one after the other:
    [parse_frame] on the whole buffer returns the first frame and its
    length [r1]; [parse_frame] at [buf + r1] on the remaining bytes returns
    the second frame, and the two lengths add up to the buffer length.
    Writing the second frame does not disturb the first. *)
Theorem X20_two_frames_back_to_back (buf : ptr)
  (ty1 sq1 cm1 : Z) (src1 : ptr) (len1 : Z)
  (ty2 sq2 cm2 : Z) (src2 : ptr) (len2 : Z)
  (s : state) (frame : protocol_frame_t) :
  is_u8 ty1 -> is_u8 sq1 -> is_u16 cm1 ->
  is_u8 ty2 -> is_u8 sq2 -> is_u16 cm2 ->
  0 <= len1 -> 0 <= len2 ->
  (9 + len1 + 2) + (9 + len2 + 2) <= 65535 ->
  src1 <> NULL -> src2 <> NULL ->
  src1 + len1 <= buf \/ buf + (9 + len1 + 2) + (9 + len2 + 2) <= src1 ->
  src2 + len2 <= buf \/ buf + (9 + len1 + 2) + (9 + len2 + 2) <= src2 ->
  let (n1, s1) := build_frame buf ty1 sq1 cm1 src1 len1 s in
  let (n2, s2) := build_frame (buf + n1) ty2 sq2 cm2 src2 len2 s1 in
  let (r1, f1) := parse_frame (mem s2) buf (n1 + n2) frame in
  let (r2, f2) := parse_frame (mem s2) (buf + r1) (n1 + n2 - r1) frame in
  r1 = n1 /\ r2 = n2 /\ r1 + r2 = n1 + n2 /\
  (type f1 = ty1 /\ seq f1 = sq1 /\ cmd f1 = cm1 /\ len f1 = len1 /\
   frame_payload (mem s2) f1 = loadbytes (mem s) src1 len1) /\
  (type f2 = ty2 /\ seq f2 = sq2 /\ cmd f2 = cm2 /\ len f2 = len2 /\
   frame_payload (mem s2) f2 = loadbytes (mem s) src2 len2).
Proof.
  intros Ht1 Hs1 Hc1 Ht2 Hs2 Hc2 Hl1 Hl2 Htot Hn1 Hn2 Hd1 Hd2.
  pose proof (build_frame_ret buf ty1 sq1 cm1 src1 len1 s) as R1.
  pose proof (parse_built_frame buf ty1 sq1 cm1 src1 len1 s
                (9 + len1 + 2) frame Ht1 Hs1 Hc1
                ltac:(unfold is_u16; lia) ltac:(lia)) as P1.
  pose proof (build_frame_payload buf ty1 sq1 cm1 src1 len1 s Hn1
                ltac:(lia)) as Y1.
  pose proof (build_frame_outside buf ty1 sq1 cm1 src1 len1 s Hl1) as O1.
  destruct (build_frame buf ty1 sq1 cm1 src1 len1 s) as [n1 s1].
  cbn [fst snd] in *; cbv zeta in P1; subst n1.
  set (buf2 := buf + (9 + len1 + 2)).
  pose proof (build_frame_ret buf2 ty2 sq2 cm2 src2 len2 s1) as R2.
  pose proof (parse_built_frame buf2 ty2 sq2 cm2 src2 len2 s1
                (9 + len2 + 2) frame Ht2 Hs2 Hc2
                ltac:(unfold is_u16; lia) ltac:(lia)) as P2.
  pose proof (build_frame_payload buf2 ty2 sq2 cm2 src2 len2 s1 Hn2
                ltac:(subst buf2; lia)) as Y2.
  pose proof (build_frame_outside buf2 ty2 sq2 cm2 src2 len2 s1 Hl2) as O2.
  destruct (build_frame buf2 ty2 sq2 cm2 src2 len2 s1) as [n2 s2].
  cbn [fst snd] in *; cbv zeta in P2; subst n2.
  assert (E1 : parse_frame (mem s2) buf (9 + len1 + 2) frame
               = parse_frame (mem s1) buf (9 + len1 + 2) frame).
  { apply parse_frame_ext; intros a Ha; apply O2; subst buf2; lia. }
  rewrite P1 in E1.
  rewrite (parse_frame_grow (mem s2) buf (9 + len1 + 2))
    by (rewrite ?E1; cbn [fst]; lia).
  rewrite E1.
  replace (9 + len1 + 2 + (9 + len2 + 2) - (9 + len1 + 2))
    with (9 + len2 + 2) by lia.
  fold buf2; rewrite P2.
  unfold frame_payload; cbn [type seq cmd len data].
  repeat split.
  - rewrite <- Y1; apply loadbytes_ext; intros x Hx; apply O2.
    subst buf2; lia.
  - rewrite Y2; apply loadbytes_ext; intros x Hx; apply O1; lia.
Qed.

Lemma X20_two_frames_back_to_back_witness :
  let s := mkState 0 (mem_of_list 8192 [0x11; 0x22; 0x33]) in
  let (n1, s1) := build_frame 4096 TYPE_RESPONSE 5 0x0101 8192 2 s in
  let (n2, s2) := build_frame (4096 + n1) TYPE_NOTIFY 6 0x4001 8194 1 s1 in
  let (r1, f1) := parse_frame (mem s2) 4096 (n1 + n2) blank_frame in
  let (r2, f2) :=
    parse_frame (mem s2) (4096 + r1) (n1 + n2 - r1) blank_frame in
  r1 = n1 /\ r2 = n2 /\ r1 + r2 = n1 + n2 /\
  (type f1 = TYPE_RESPONSE /\ seq f1 = 5 /\ cmd f1 = 0x0101 /\ len f1 = 2 /\
   frame_payload (mem s2) f1 = loadbytes (mem s) 8192 2) /\
  (type f2 = TYPE_NOTIFY /\ seq f2 = 6 /\ cmd f2 = 0x4001 /\ len f2 = 1 /\
   frame_payload (mem s2) f2 = loadbytes (mem s) 8194 1).
Proof.
  intros s.
  apply (X20_two_frames_back_to_back 4096
           TYPE_RESPONSE 5 0x0101 8192 2 TYPE_NOTIFY 6 0x4001 8194 1
           s blank_frame);
    unfold is_u8, is_u16, TYPE_RESPONSE, TYPE_NOTIFY, NULL; lia.
Defined.

(** ** Sequence numbers *)

Lemma next_seq_times_state n : forall s,
  is_u8 (_seq_counter s) ->
  _seq_counter (snd (next_seq_times n s))
  = (_seq_counter s + Z.of_nat n) mod 256 /\
  mem (snd (next_seq_times n s)) = mem s.
Proof.
  induction n as [| n IH]; intros s Hc.
  - cbn; rewrite Z.add_0_r, Z.mod_small by exact Hc; auto.
  - assert (E : next_seq_times (S n) s =
                 let (vs, s2) :=
                   next_seq_times n (mkState (u8 (_seq_counter s + 1)) (mem s)) in
                 (_seq_counter s :: vs, s2)) by reflexivity.
    rewrite E; clear E.
    specialize (IH (mkState (u8 (_seq_counter s + 1)) (mem s))
                  ltac:(cbn [_seq_counter]; apply u8_range)).
    destruct (next_seq_times n (mkState (u8 (_seq_counter s + 1)) (mem s)))
      as [vs s2].
    cbn [fst snd _seq_counter mem] in *.
    destruct IH as [IH1 IH2]; split; [| exact IH2].
    rewrite IH1; unfold u8.
    rewrite Zplus_mod_idemp_l; f_equal; lia.
Qed.

(** X21 — Sequence numbers do not repeat within a window of 256: the values
    returned by up to 256 consecutive calls of [next_seq] are pairwise
    distinct; after [n] calls the counter is [(c + n) mod 256], so after
    exactly 256 calls it is back where it started; memory is not touched. *)
Theorem X21_sequence_numbers_window (n : nat) (s : state) :
  is_u8 (_seq_counter s) ->
  (n <= 256)%nat ->
  NoDup (fst (next_seq_times n s)) /\
  _seq_counter (snd (next_seq_times n s))
  = (_seq_counter s + Z.of_nat n) mod 256 /\
  (n = 256%nat -> _seq_counter (snd (next_seq_times n s)) = _seq_counter s) /\
  mem (snd (next_seq_times n s)) = mem s.
Proof.
  intros Hc Hn.
  destruct (next_seq_times_state n s Hc) as [Hk Hm].
  split; [| split; [exact Hk | split; [| exact Hm]]].
  - rewrite next_seq_times_values by exact Hc.
    apply NoDup_map_NoDup_ForallPairs; [| apply seq_NoDup].
    intros i j Hi Hj E.
    apply in_seq in Hi; apply in_seq in Hj.
    unfold is_u8 in Hc.
    assert (Z.of_nat i = Z.of_nat j); [| lia].
    assert (Hn' : Z.of_nat n <= 256) by lia.
    Z.div_mod_to_equations; lia.
  - intros ->; rewrite Hk.
    change (Z.of_nat 256) with 256.
    rewrite <- Zplus_mod_idemp_r; change (256 mod 256) with 0.
    rewrite Z.add_0_r; apply Z.mod_small; exact Hc.
Qed.

Lemma X21_sequence_numbers_window_witness :
  NoDup (fst (next_seq_times 4 (mkState 254 zero_memory))) /\
  _seq_counter (snd (next_seq_times 4 (mkState 254 zero_memory))) = 2.
Proof.
  assert (Hc : is_u8 (_seq_counter (mkState 254 zero_memory)))
    by (unfold is_u8; cbn; lia).
  destruct (X21_sequence_numbers_window 4 (mkState 254 zero_memory) Hc
              ltac:(lia)) as (H1 & H2 & _).
  split; [exact H1 | exact H2].
Defined.

(** ** Corruption in transit *)

Lemma build_frame_bytes_ok buf ty sq cm src data_len s :
  (forall a, is_u8 (load (mem s) a)) ->
  forall a, is_u8 (load (mem (snd (build_frame buf ty sq cm src data_len s))) a).
Proof.
  intros Hm a.
  run_builder.
  destruct (negb (src =? NULL) && (0 <? data_len));
    cbn [fst snd mem _seq_counter]; cbv zeta;
    unfold load, store, memcpy in *; cbv beta;
    repeat match goal with
           | |- is_u8 (if ?c then _ else _) => destruct c
           end;
    first [apply u8_range | apply Hm].
Qed.

(** X22 — A byte corrupted in transit is caught by the receiver's check: if
    one byte between the version byte and the end of the payload of a frame
    made by [build_frame] (the two len bytes apart) is replaced by a
    different byte value, [parse_frame] still succeeds, and the [crc] field
    it extracts differs from [crc16_modbus] recomputed over the received
    bytes. *)
Theorem X22_corrupted_byte_detected (buf : ptr) (ty sq cm : Z) (src : ptr)
  (data_len : Z) (s : state) (frame : protocol_frame_t) (k v : Z) :
  (forall a, is_u8 (load (mem s) a)) ->
  is_u8 ty -> is_u8 sq -> is_u16 cm -> 0 <= data_len <= 65524 ->
  2 <= k < 7 \/ 9 <= k < 9 + data_len ->
  is_u8 v ->
  let (n, s') := build_frame buf ty sq cm src data_len s in
  v <> load (mem s') (buf + k) ->
  let m'' := store (mem s') (buf + k) v in
  let (r, f) := parse_frame m'' buf n frame in
  r = n /\
  crc f <> crc16_modbus m'' (buf + OFFSET_VER) (7 + len f).
Proof.
  intros Hm Hty Hsq Hcm Hlen Hk Hv; unfold_offsets.
  pose proof (build_frame_ret buf ty sq cm src data_len s) as Hn.
  pose proof (build_frame_bytes_ok buf ty sq cm src data_len s Hm) as Hok.
  destruct (build_frame_header_loads buf ty sq cm src data_len s
              ltac:(lia)) as (L0 & L1 & _).
  pose proof (build_frame_len_field buf ty sq cm src data_len s
                ltac:(unfold is_u16; lia)) as HL.
  pose proof (build_frame_crc_field buf ty sq cm src data_len s
                ltac:(lia)) as HK.
  destruct (build_frame buf ty sq cm src data_len s) as [n s'].
  cbn [fst snd] in *; cbv zeta in HK; subst n.
  intros Hne; cbv zeta.
  set (m'' := store (mem s') (buf + k) v).
  assert (E7 : be_to_u16 m'' (buf + 7) = data_len).
  { rewrite <- HL; apply be_to_u16_ext; subst m'';
      apply load_store_other; lia. }
  assert (Hs : check_sync m'' buf = true).
  { apply check_sync_true; subst m''.
    rewrite !load_store_other by lia; auto. }
  rewrite parse_frame_complete by (rewrite ?E7; assumption || lia).
  rewrite E7; cbn [crc len]; split; [reflexivity |].
  assert (EK : be_to_u16 m'' (buf + (9 + data_len))
               = crc16_modbus (mem s') (buf + 2) (7 + data_len)).
  { rewrite (u16_small (7 + data_len)) in HK by (unfold is_u16; lia).
    rewrite <- HK; apply be_to_u16_ext; subst m'';
      apply load_store_other; lia. }
  rewrite EK; intros E.
  subst m''; replace (buf + k) with (buf + 2 + (k - 2)) in E, Hne by lia.
  symmetry in E; revert E.
  apply crc16_modbus_one_byte; try assumption; try lia.
  intros a _; apply Hok.
Qed.

Lemma X22_corrupted_byte_detected_witness :
  let s := mkState 0 (mem_of_list 8192 [0x03]) in
  let (n, s') := build_frame 4096 TYPE_NACK 7 0x3001 8192 1 s in
  let m'' := store (mem s') (4096 + 9) 0x04 in
  let (r, f) := parse_frame m'' 4096 n blank_frame in
  r = n /\
  crc f <> crc16_modbus m'' (4096 + OFFSET_VER) (7 + len f).
Proof.
  intros s.
  assert (Hm : forall a, is_u8 (load (mem s) a)).
  { intros a; apply mem_of_list_u8.
    repeat constructor; unfold is_u8; lia. }
  pose proof (X22_corrupted_byte_detected 4096 TYPE_NACK 7 0x3001 8192 1 s
                blank_frame 9 0x04 Hm
                ltac:(unfold is_u8, TYPE_NACK; lia) ltac:(unfold is_u8; lia)
                ltac:(unfold is_u16; lia) ltac:(lia) ltac:(lia)
                ltac:(unfold is_u8; lia)) as H.
  vm_compute in H |- *.
  apply H; discriminate.
Defined.
